(** * DevPilotAI backend: the generate and history endpoints

    A shallow embedding of [backend/src/routes/generate.ts] and
    [backend/src/routes/history.ts] together with the part of the
    JavaScript runtime, of Express and of the Prisma client that the two
    handlers observe.

    Conventions.
    - A JavaScript string is the list of its UTF-16 code units.
    - A JavaScript number is modelled by an integer of [Z]. A JavaScript
      number is a double: it holds every integer up to [MAX_SAFE_INTEGER]
      (2^53 - 1) in magnitude and rounds beyond. The model does not round,
      so it agrees with the code as long as the numbers read, computed and
      written stay within that range.
    - [undefined] is [None] at type [option json].
    - The outside world (the database being reachable, the answer of the
      Gemini API, the identifier and the timestamp the database assigns,
      the order in which the database returns rows that the query does not
      order) is an explicit record [Env]; the handlers are functions of it.
    - The database queries and the upstream call a handler makes are
      recorded, in order, in the trace of the [World]; [console.error]
      output is not modelled. *)

From Stdlib Require Import ZArith NArith String Ascii DecimalString DecimalPos.
From stdpp Require Import base list option numbers gmap sorting.

Local Open Scope Z_scope.
Set Warnings "-register-all".

(** ** JavaScript strings *)

Module Js.

Definition jsstring := list N.

(** The code units of an ASCII literal of the source. *)
Definition lit (s : string) : jsstring :=
  N_of_ascii <$> list_ascii_of_string s.
Arguments lit s%_string.

(** ECMAScript [WhiteSpace] and [LineTerminator] code points: what
    [String.prototype.trim] and [parseInt] strip. *)
Definition is_white_space (c : N) : bool :=
  ((c =? 0x9) || (c =? 0xB) || (c =? 0xC) || (c =? 0x20) || (c =? 0xA0)
   || (c =? 0xFEFF) || (c =? 0x1680)
   || ((0x2000 <=? c) && (c <=? 0x200A))
   || (c =? 0x202F) || (c =? 0x205F) || (c =? 0x3000))%N.

Definition is_line_terminator (c : N) : bool :=
  ((c =? 0xA) || (c =? 0xD) || (c =? 0x2028) || (c =? 0x2029))%N.

Definition is_trimmable (c : N) : bool :=
  is_white_space c || is_line_terminator c.

Fixpoint trim_start (s : jsstring) : jsstring :=
  match s with
  | [] => []
  | c :: r => if is_trimmable c then trim_start r else s
  end.

Definition trim_end (s : jsstring) : jsstring :=
  rev (trim_start (rev s)).

(** [s.trim()] *)
Definition trim (s : jsstring) : jsstring := trim_end (trim_start s).

Fixpoint starts_with (pat s : jsstring) : bool :=
  match pat, s with
  | [], _ => true
  | _ :: _, [] => false
  | p :: pat', c :: s' => (p =? c)%N && starts_with pat' s'
  end.

(** [s.includes(pat)] *)
Fixpoint includes (s pat : jsstring) : bool :=
  starts_with pat s ||
  match s with
  | [] => false
  | _ :: s' => includes s' pat
  end.

(** Decimal rendering of an integral number: [String(n)] and [`${n}`] for
    a number of magnitude below 10^21. (From 10^21 on JavaScript writes an
    exponent, as in ["1e+21"], which is not modelled.) *)
Definition dec (n : Z) : jsstring :=
  lit (NilEmpty.string_of_int (Z.to_int n)).

(** *** parseInt *)

(** Value of a code unit as a digit in radix 36. *)
Definition digit_value (c : N) : option Z :=
  if ((48 <=? c) && (c <=? 57))%N then Some (Z.of_N c - 48)
  else if ((97 <=? c) && (c <=? 122))%N then Some (Z.of_N c - 97 + 10)
  else if ((65 <=? c) && (c <=? 90))%N then Some (Z.of_N c - 65 + 10)
  else None.

(** The longest prefix of radix-[R] digits, read as a number; [acc] is the
    value of the digits consumed so far, [None] before the first one. *)
Fixpoint parse_digits (R : Z) (s : jsstring) (acc : option Z) : option Z :=
  match s with
  | [] => acc
  | c :: r =>
      match digit_value c with
      | Some d =>
          if d <? R then parse_digits R r (Some (default 0 acc * R + d))
          else acc
      | None => acc
      end
  end.

(** [parseInt(input)] with no radix argument: leading white space is
    skipped, a sign is read, a [0x]/[0X] prefix selects radix 16, the
    longest digit prefix is the value; [None] is [NaN]. The value is the
    integer the digits denote; JavaScript returns the double nearest to it,
    which is that integer whenever it is at most [MAX_SAFE_INTEGER] in
    magnitude. *)
Definition parseInt (input : jsstring) : option Z :=
  let s := trim_start input in
  let '(sign, s) :=
    match s with
    | c :: r => if (c =? 45)%N then (-1, r)
                else if (c =? 43)%N then (1, r) else (1, s)
    | [] => (1, s)
    end in
  let '(R, s) :=
    match s with
    | c0 :: x :: r =>
        if (c0 =? 48)%N && ((x =? 120) || (x =? 88))%N then (16, r)
        else (10, s)
    | _ => (10, s)
    end in
  match parse_digits R s None with
  | None => None
  | Some m => Some (sign * m)
  end.

(** [Number.MAX_SAFE_INTEGER] *)
Definition MAX_SAFE_INTEGER : Z := 2 ^ 53 - 1.

(** [n || d] on numbers: [NaN] and [0] are falsy. *)
Definition or_number (n : option Z) (d : Z) : Z :=
  match n with
  | Some v => if v =? 0 then d else v
  | None => d
  end.

(** ** JSON values *)

Inductive json :=
| JNull
| JBool (b : bool)
| JNum (n : Z)
| JStr (s : jsstring)
| JArr (l : list json)
| JObj (fields : list (jsstring * json)).

(** A JavaScript value coming from JSON; [None] is [undefined]. *)
Definition value := option json.

Definition truthy (v : value) : bool :=
  match v with
  | None | Some JNull => false
  | Some (JBool b) => b
  | Some (JNum n) => negb (n =? 0)
  | Some (JStr s) => negb (bool_decide (s = []))
  | Some (JArr _) | Some (JObj _) => true
  end.

(** [typeof v === 'string'] *)
Definition is_string (v : value) : bool :=
  match v with Some (JStr _) => true | _ => false end.

(** The characters of a string value (used under an [is_string] guard). *)
Definition string_of (v : value) : jsstring :=
  match v with Some (JStr s) => s | _ => [] end.

Fixpoint assoc (fields : list (jsstring * json)) (k : jsstring) : value :=
  match fields with
  | [] => None
  | (k', v) :: rest => if bool_decide (k' = k) then Some v else assoc rest k
  end.

(** Own data property [v.k] of a non-null value, for the names the
    handlers read ([error], [message], [candidates], [content], [parts],
    [text]); none of them is inherited from a prototype. *)
Definition member (v : json) (k : jsstring) : value :=
  match v with
  | JObj fields => assoc fields k
  | _ => None
  end.

(** [v[0]] of a non-null value. *)
Definition index0 (v : json) : value :=
  match v with
  | JObj fields => assoc fields (lit "0")
  | JArr l => head l
  | JStr s => (fun c => JStr [c]) <$> head s
  | _ => None
  end.

(** Optional chaining [v?.k] and [v?.[0]]. *)
Definition opt_member (v : value) (k : jsstring) : value :=
  match v with
  | None | Some JNull => None
  | Some x => member x k
  end.

Definition opt_index0 (v : value) : value :=
  match v with
  | None | Some JNull => None
  | Some x => index0 x
  end.

Fixpoint join (sep : jsstring) (parts : list jsstring) : jsstring :=
  match parts with
  | [] => []
  | [p] => p
  | p :: rest => p ++ sep ++ join sep rest
  end.

(** [String(v)] *)
Fixpoint to_string (v : json) : jsstring :=
  match v with
  | JNull => lit "null"
  | JBool true => lit "true"
  | JBool false => lit "false"
  | JNum n => dec n
  | JStr s => s
  | JArr l =>
      join (lit ",")
        (map (fun x => match x with JNull => [] | _ => to_string x end) l)
  | JObj _ => lit "[object Object]"
  end.

(** An exception value as the [catch] blocks read it: [error.message] and
    [error.status]. An [Error] built by [new Error(msg)] has no status. *)
Record JsError := { message : jsstring; status : option Z }.

Definition new_Error (msg : jsstring) : JsError :=
  {| message := msg; status := None |}.

End Js.

Export Js.

(** ** The persisted store (Prisma schema: tables [User] and [generations]) *)

Record User := {
  user_email : option jsstring;
  user_name : option jsstring;
  user_createdAt : Z;
  user_updatedAt : Z }.

Record Generation := {
  gen_id : jsstring;
  gen_prompt : jsstring;
  gen_language : jsstring;
  gen_code : jsstring;
  gen_userId : option jsstring;
  gen_createdAt : Z }.

(** Users are keyed by their primary key [id]; the generations table is
    kept in insertion order. *)
Record Store := {
  users : gmap jsstring User;
  generations : list Generation }.

(** ** HTTP responses of the two handlers *)

(** [include: { user: { select: { id, name, email } } }] *)
Record UserSummary := {
  sum_id : jsstring;
  sum_name : option jsstring;
  sum_email : option jsstring }.

Record HistoryItem := {
  item_generation : Generation;
  item_user : option UserSummary }.

Record Pagination := {
  pg_page : Z;
  pg_limit : Z;
  pg_total : Z;
  pg_totalPages : Z;
  pg_hasNext : bool;
  pg_hasPrev : bool }.

Inductive Body :=
| BError (error : jsstring)
| BErrorMessage (error msg : jsstring)
| BGeneration (g : Generation)
| BHistory (gens : list HistoryItem) (pagination : Pagination).

Record Response := { res_status : Z; res_body : Body }.

(** ** The upstream HTTP call *)

Inductive JsonResult :=
| Parsed (j : json)
| Unparsable (e : JsError).

Record HttpResponse := {
  http_status : Z;
  http_statusText : jsstring;
  http_json : JsonResult }.

(** [response.ok]: the status is in the range 200-299. *)
Definition http_ok (r : HttpResponse) : bool :=
  (200 <=? http_status r) && (http_status r <=? 299).

Inductive FetchResult :=
| FetchRejected (e : JsError)
| FetchResolved (r : HttpResponse).

(** ** The environment of one request *)

Record Env := {
  user_findUnique_error : option JsError;
  fetch_result : FetchResult;
  generation_create_error : option JsError;
  generated_id : jsstring;
  current_timestamp : Z;
  generation_count_error : option JsError;
  generation_findMany_error : option JsError;
  tie_rank : Generation -> Z }.

(** ** Effects and the handler monad *)

Record CreateData := {
  data_prompt : jsstring;
  data_language : jsstring;
  data_code : jsstring;
  data_userId : option jsstring }.

Inductive Effect :=
| DbUserFindUnique (id : jsstring)
| DbGenerationCreate (data : CreateData)
| DbGenerationCount (where_language : option jsstring)
| DbGenerationFindMany (where_language : option jsstring) (skip take : Z)
| HttpFetch (prompt_text : jsstring).

(** The store and the effects performed so far, oldest first. *)
Record World := { store : Store; trace : list Effect }.

Definition log (e : Effect) (w : World) : World :=
  {| store := store w; trace := trace w ++ [e] |}.

(** How a piece of handler code ends: it falls through with a value, it
    has sent the response and returned, or it has thrown. *)
Inductive Completion (A : Type) :=
| Normal (a : A)
| Responded (r : Response)
| Thrown (e : JsError).
Arguments Normal {A} a.
Arguments Responded {A} r.
Arguments Thrown {A} e.

Definition Handler (A : Type) : Type := World -> Completion A * World.

#[global] Instance handler_ret : MRet Handler :=
  fun A a w => (Normal a, w).

#[global] Instance handler_bind : MBind Handler :=
  fun A B f m w =>
    match m w with
    | (Normal a, w') => f a w'
    | (Responded r, w') => (Responded r, w')
    | (Thrown e, w') => (Thrown e, w')
    end.

(** [return res.status(s).json(b)]. Express and Node send a status between
    100 and 999, and every status in the source is a literal in that range
    but the [error.status] of the [catch] block of [generateCode]; with a
    status outside the range the call throws instead of answering, which
    is not modelled. *)
Definition respond {A} (s : Z) (b : Body) : Handler A :=
  fun w => (Responded {| res_status := s; res_body := b |}, w).

Definition throw {A} (e : JsError) : Handler A :=
  fun w => (Thrown e, w).

Definition perform (e : Effect) : Handler unit :=
  fun w => (Normal (), log e w).

(** Reading and replacing the store. *)
Definition gets {A} (f : Store -> A) : Handler A :=
  fun w => (Normal (f (store w)), w).

Definition put_store (s : Store) : Handler unit :=
  fun w => (Normal (), {| store := s; trace := trace w |}).

(** [if (c) { h }] *)
Definition when (c : bool) (h : Handler unit) : Handler unit :=
  if c then h else mret ().

(** [try { body } catch (error) { handler error }] *)
Definition try_catch (body : Handler unit) (handler : JsError -> Handler unit)
  : Handler unit :=
  fun w =>
    match body w with
    | (Thrown e, w') => handler e w'
    | other => other
    end.

(** [await Promise.all([a, b])]: both operations are started, and the
    result is the pair of their values unless one of them rejects. *)
Definition promise_all {A B} (a : Handler A) (b : Handler B) : Handler (A * B) :=
  fun w =>
    let '(ca, w1) := a w in
    let '(cb, w2) := b w1 in
    match ca, cb with
    | Normal x, Normal y => (Normal (x, y), w2)
    | Thrown e, _ => (Thrown e, w2)
    | Responded r, _ => (Responded r, w2)
    | Normal _, Thrown e => (Thrown e, w2)
    | Normal _, Responded r => (Responded r, w2)
    end.

(** Running a handler: the response it sent, if any, and the final world. *)
Definition run (h : Handler unit) (w : World) : option Response * World :=
  match h w with
  | (Responded r, w') => (Some r, w')
  | (_, w') => (None, w')
  end.

(** ** Prisma client operations *)

Definition rejects_with (e : option JsError) : Handler unit :=
  match e with
  | Some err => throw err
  | None => mret ()
  end.

(** [prisma.user.findUnique({ where: { id } })] *)
Definition user_findUnique (env : Env) (id : jsstring) : Handler (option User) :=
  perform (DbUserFindUnique id);;
  rejects_with (user_findUnique_error env);;
  gets (fun s => users s !! id).

(** [prisma.generation.create({ data })]: the database assigns the
    identifier and the creation timestamp. *)
Definition generation_create (env : Env) (d : CreateData) : Handler Generation :=
  perform (DbGenerationCreate d);;
  rejects_with (generation_create_error env);;
  let g := {| gen_id := generated_id env;
              gen_prompt := data_prompt d;
              gen_language := data_language d;
              gen_code := data_code d;
              gen_userId := data_userId d;
              gen_createdAt := current_timestamp env |} in
  s ← gets id;
  put_store {| users := users s; generations := generations s ++ [g] |};;
  mret g.

Definition matches_where (where_language : option jsstring) (g : Generation) : bool :=
  match where_language with
  | Some l => bool_decide (gen_language g = l)
  | None => true
  end.

Definition matching (where_language : option jsstring) (s : Store)
  : list Generation :=
  filter (fun g => matches_where where_language g = true) (generations s).

(** [prisma.generation.count({ where })] *)
Definition generation_count (env : Env) (where_language : option jsstring)
  : Handler Z :=
  perform (DbGenerationCount where_language);;
  rejects_with (generation_count_error env);;
  gets (fun s => Z.of_nat (length (matching where_language s))).

(** [orderBy: { createdAt: 'desc' }] *)
Definition newer_or_same (g1 g2 : Generation) : Prop :=
  gen_createdAt g2 <= gen_createdAt g1.

#[global] Instance newer_or_same_dec g1 g2 : Decision (newer_or_same g1 g2).
Proof. unfold newer_or_same. apply _. Defined.

(** The order of the rows of one [findMany] answer. [createdAt] is the only
    key of the query and the column is not unique, so the order of rows
    created at the same time is the database's: it ranks them by
    [tie_rank], which belongs to the environment of the request and may
    differ from one request to the next. *)
Definition returned_before (env : Env) (g1 g2 : Generation) : Prop :=
  gen_createdAt g2 < gen_createdAt g1 \/
  (gen_createdAt g2 = gen_createdAt g1 /\ tie_rank env g1 <= tie_rank env g2).

#[global] Instance returned_before_dec env g1 g2 :
  Decision (returned_before env g1 g2).
Proof. unfold returned_before. apply _. Defined.

#[global] Instance Generation_eq_dec : EqDecision Generation.
Proof. solve_decision. Defined.

(** The environment [env] with a database that returns rows of one
    timestamp in the order they have in [ordered]. *)
Definition with_tie_order (env : Env) (ordered : list Generation) : Env :=
  {| user_findUnique_error := user_findUnique_error env;
     fetch_result := fetch_result env;
     generation_create_error := generation_create_error env;
     generated_id := generated_id env;
     current_timestamp := current_timestamp env;
     generation_count_error := generation_count_error env;
     generation_findMany_error := generation_findMany_error env;
     tie_rank := fun g =>
       from_option (fun found => Z.of_nat (fst found)) 0
         (list_find (fun x => x = g) ordered) |}.

Definition with_user (s : Store) (g : Generation) : HistoryItem :=
  {| item_generation := g;
     item_user :=
       uid ← gen_userId g;
       u ← users s !! uid;
       Some {| sum_id := uid; sum_name := user_name u; sum_email := user_email u |} |}.

(** [prisma.generation.findMany({ where, orderBy, skip, take, include })] *)
Definition generation_findMany (env : Env) (where_language : option jsstring)
  (skip take_ : Z) : Handler (list HistoryItem) :=
  perform (DbGenerationFindMany where_language skip take_);;
  rejects_with (generation_findMany_error env);;
  gets (fun s =>
    let ordered := merge_sort (returned_before env) (matching where_language s) in
    with_user s <$> take (Z.to_nat take_) (drop (Z.to_nat skip) ordered)).

(** [fetch(url, { method: 'POST', body })] *)
Definition fetch (env : Env) (prompt_text : jsstring) : Handler HttpResponse :=
  perform (HttpFetch prompt_text);;
  match fetch_result env with
  | FetchRejected e => throw e
  | FetchResolved r => mret r
  end.

(** [response.json()] *)
Definition response_json (r : HttpResponse) : Handler json :=
  match http_json r with
  | Parsed j => mret j
  | Unparsable e => throw e
  end.

(** ** POST /api/generate  (routes/generate.ts) *)

(** [req.body] as [express.json()] leaves it: the fields of the parsed
    JSON object, each name once. *)
Record Request := { body : list (jsstring * json) }.

Definition validLanguages : list jsstring :=
  [lit "Python"; lit "JavaScript"; lit "C++"; lit "TypeScript"].

(** [validLanguages.includes(language)] *)
Definition array_includes (l : list jsstring) (v : jsstring) : bool :=
  bool_decide (v ∈ l).

(** The instruction sent upstream: a template literal around the language
    and the prompt as received. *)
Definition fullPrompt (language prompt : jsstring) : jsstring :=
  lit "You are a code generation assistant. Generate clean, well-commented code in "
  ++ language
  ++ lit ". Return ONLY the code without any markdown formatting, explanations, or additional text. Just the raw code."
  ++ [10; 10]%N
  ++ lit "User request: " ++ prompt.

(** Reading a property of [null] throws a [TypeError]. *)
Definition TypeError_null (property : string) : JsError :=
  new_Error (lit "Cannot read properties of null (reading '" ++ lit property ++ lit "')").

Definition TypeError_not_a_function : JsError :=
  new_Error (lit "data.candidates?.[0]?.content?.parts?.[0]?.text?.trim is not a function").

(** [errorData.error?.message || `API request failed with status ${status}`],
    as the message of the [Error] that is thrown. *)
Definition upstream_error_message (errorData : json) (status_code : Z)
  : JsError + jsstring :=
  match errorData with
  | JNull => inl (TypeError_null "error")
  | _ =>
      let m := opt_member (member errorData (lit "error")) (lit "message") in
      inr (if truthy m then from_option to_string [] m
           else lit "API request failed with status " ++ dec status_code)
  end.

(** [data.candidates?.[0]?.content?.parts?.[0]?.text] of a non-null [data] *)
Definition candidate_text (data : json) : value :=
  opt_member
    (opt_index0
       (opt_member
          (opt_member (opt_index0 (member data (lit "candidates")))
                      (lit "content"))
          (lit "parts")))
    (lit "text").

(** [data.candidates?.[0]?.content?.parts?.[0]?.text?.trim() || ''] *)
Definition generated_text (data : json) : JsError + jsstring :=
  match data with
  | JNull => inl (TypeError_null "candidates")
  | _ =>
      match candidate_text data with
      | None | Some JNull => inr []
      | Some (JStr s) => inr (trim s)
      | Some _ => inl TypeError_not_a_function
      end
  end.

Definition lift_result {A} (r : JsError + A) : Handler A :=
  match r with
  | inl e => throw e
  | inr a => mret a
  end.

(** The [catch] block of [generateCode]. *)
Definition generate_catch (error : JsError) : Handler unit :=
  when (includes (message error) (lit "API_KEY_INVALID")
        || includes (message error) (lit "API key"))
    (respond 401
       (BErrorMessage (lit "Invalid Gemini API key")
          (lit "Please check your GEMINI_API_KEY in the .env file. Get your API key at https://makersuite.google.com/app/apikey")));;
  when (includes (message error) (lit "quota")
        || includes (message error) (lit "429"))
    (respond 429
       (BErrorMessage (lit "Gemini API quota exceeded")
          (lit "You have exceeded your Gemini API quota. Please check your usage at https://makersuite.google.com/app/apikey")));;
  match status error with
  | Some s =>
      when (negb (s =? 0))
        (respond s
           (BErrorMessage (lit "Gemini API error")
              (if bool_decide (message error = []) then lit "Failed to generate code"
               else message error)))
  | None => mret ()
  end;;
  respond 500
    (BErrorMessage (lit "Failed to generate code")
       (if bool_decide (message error = []) then lit "An unexpected error occurred"
        else message error)).

Definition generateCode (env : Env) (req : Request) : Handler unit :=
  try_catch
    (let prompt := assoc (body req) (lit "prompt") in
     let language := assoc (body req) (lit "language") in
     let userId := assoc (body req) (lit "userId") in
     (* Validation *)
     when (negb (truthy prompt) || negb (is_string prompt)
           || (length (trim (string_of prompt)) =? 0)%nat)
       (respond 400 (BError (lit "Prompt is required and must be a non-empty string")));;
     when (negb (truthy language) || negb (is_string language))
       (respond 400 (BError (lit "Language is required and must be a string")));;
     when (negb (array_includes validLanguages (string_of language)))
       (respond 400
          (BError (lit "Language must be one of: "
                   ++ join (lit ", ") validLanguages)));;
     (* Validate userId if provided *)
     when (truthy userId && negb (is_string userId))
       (respond 400 (BError (lit "userId must be a string if provided")));;
     (* Check if user exists if userId is provided *)
     when (truthy userId)
       (user ← user_findUnique env (string_of userId);
        when (negb (bool_decide (is_Some user)))
          (respond 404 (BError (lit "User not found"))));;
     (* Generate code using Gemini API v1 *)
     response ← fetch env (fullPrompt (string_of language) (string_of prompt));
     when (negb (http_ok response))
       (let errorData :=
          match http_json response with
          | Parsed j => j
          | Unparsable _ =>
              JObj [(lit "error",
                     JObj [(lit "message", JStr (http_statusText response))])]
          end in
        m ← lift_result (upstream_error_message errorData (http_status response));
        throw (new_Error m));;
     data ← response_json response;
     generatedCode ← lift_result (generated_text data);
     when (bool_decide (generatedCode = []))
       (respond 500 (BError (lit "Failed to generate code")));;
     (* Save to database *)
     generation ← generation_create env
       {| data_prompt := trim (string_of prompt);
          data_language := string_of language;
          data_code := generatedCode;
          data_userId := if truthy userId then Some (string_of userId) else None |};
     respond 200 (BGeneration generation))
    generate_catch.

(** ** GET /api/history  (routes/history.ts) *)

Record Query := {
  q_page : option jsstring;
  q_limit : option jsstring;
  q_language : option jsstring }.

(** [parseInt(req.query.p as string)]: an absent parameter is [undefined],
    which [parseInt] first converts to the string ["undefined"]. *)
Definition parseInt_param (p : option jsstring) : option Z :=
  parseInt (default (lit "undefined") p).

Definition page_of (q : Query) : Z := or_number (parseInt_param (q_page q)) 1.
Definition limit_of (q : Query) : Z := or_number (parseInt_param (q_limit q)) 10.

(** The [where] clause: the language filter is set when the parameter is a
    non-empty string. *)
Definition where_of (q : Query) : option jsstring :=
  match q_language q with
  | Some l => if bool_decide (l = []) then None else Some l
  | None => None
  end.

(** [Math.ceil(total / limit)] for a positive [limit]. *)
Definition ceil_div (total limit : Z) : Z := - ((- total) / limit).

Definition getHistory (env : Env) (q : Query) : Handler unit :=
  try_catch
    (let page := page_of q in
     let limit := limit_of q in
     (* Validation *)
     when (page <? 1)
       (respond 400 (BError (lit "Page must be greater than 0")));;
     when ((limit <? 1) || (limit >? 100))
       (respond 400 (BError (lit "Limit must be between 1 and 100")));;
     let skip := (page - 1) * limit in
     (* Build where clause *)
     let where_ := where_of q in
     (* Get total count and generations *)
     '(total, gens) ← promise_all (generation_count env where_)
                                  (generation_findMany env where_ skip limit);
     let totalPages := ceil_div total limit in
     respond 200
       (BHistory gens
          {| pg_page := page;
             pg_limit := limit;
             pg_total := total;
             pg_totalPages := totalPages;
             pg_hasNext := page <? totalPages;
             pg_hasPrev := page >? 1 |}))
    (fun _ => respond 500 (BError (lit "Failed to fetch history"))).

(** ** Vocabulary of the statements *)

(** The responses of [getHistory]. *)
Definition history_400_page : Response :=
  {| res_status := 400; res_body := BError (lit "Page must be greater than 0") |}.
Definition history_400_limit : Response :=
  {| res_status := 400; res_body := BError (lit "Limit must be between 1 and 100") |}.
Definition history_500 : Response :=
  {| res_status := 500; res_body := BError (lit "Failed to fetch history") |}.

(** The page of rows the query selects and its metadata. *)
Definition history_rows (env : Env) (q : Query) (s : Store) : list Generation :=
  take (Z.to_nat (limit_of q))
    (drop (Z.to_nat ((page_of q - 1) * limit_of q))
       (merge_sort (returned_before env) (matching (where_of q) s))).

Definition history_200 (env : Env) (q : Query) (s : Store) : Response :=
  let total := Z.of_nat (length (matching (where_of q) s)) in
  {| res_status := 200;
     res_body :=
       BHistory (with_user s <$> history_rows env q s)
         {| pg_page := page_of q;
            pg_limit := limit_of q;
            pg_total := total;
            pg_totalPages := ceil_div total (limit_of q);
            pg_hasNext := page_of q <? ceil_div total (limit_of q);
            pg_hasPrev := page_of q >? 1 |} |}.

(** What [orderBy: { createdAt: 'desc' }] promises of the rows it returns:
    they are the rows found, each once, and none comes before a newer one.
    It leaves the order of rows of one timestamp open. *)
Definition newest_first (found ordered : list Generation) : Prop :=
  ordered ≡ₚ found /\ StronglySorted newer_or_same ordered.

(** No two of the rows were created at the same time. *)
Definition distinct_timestamps (l : list Generation) : Prop :=
  NoDup (gen_createdAt <$> l).

(** An environment in which both queries of [getHistory] are answered. *)
Definition database_answers (env : Env) : Prop :=
  generation_count_error env = None /\ generation_findMany_error env = None.

(** The page and the limit a response body reports. *)
Definition pg_page_of (b : Body) : option Z :=
  match b with BHistory _ pg => Some (pg_page pg) | _ => None end.
Definition pg_limit_of (b : Body) : option Z :=
  match b with BHistory _ pg => Some (pg_limit pg) | _ => None end.

(** Decimal digits and the number a string of them denotes. *)
Definition is_decimal_digit (c : N) : bool := ((48 <=? c) && (c <=? 57))%N.

Definition decimal_value (ds : jsstring) : Z :=
  fold_left (fun acc c => acc * 10 + (Z.of_N c - 48)) ds 0.

(** A string of white space and line terminators only (possibly empty). *)
Definition whitespace_only (s : jsstring) : Prop :=
  Forall (fun c => is_trimmable c = true) s.

(** The three fields [generateCode] reads from the request body. *)
Definition prompt_of (req : Request) : value := assoc (body req) (lit "prompt").
Definition language_of (req : Request) : value := assoc (body req) (lit "language").
Definition userId_of (req : Request) : value := assoc (body req) (lit "userId").

(** A prompt that is missing, not a string, empty or blank. *)
Definition bad_prompt (v : value) : Prop :=
  match v with
  | Some (JStr s) => whitespace_only s
  | _ => True
  end.

(** A language that is missing, not a string, or not one of the four. *)
Definition bad_language (v : value) : Prop :=
  match v with
  | Some (JStr l) => l ∉ validLanguages
  | _ => True
  end.

(** The rest of [generateCode] once the user check is behind: the upstream
    call, the extraction of the text and the store write. *)
Definition generate_upstream (env : Env) (prompt language userId : value)
  : Handler unit :=
  response ← fetch env (fullPrompt (string_of language) (string_of prompt));
  when (negb (http_ok response))
    (let errorData :=
       match http_json response with
       | Parsed j => j
       | Unparsable _ =>
           JObj [(lit "error",
                  JObj [(lit "message", JStr (http_statusText response))])]
       end in
     m ← lift_result (upstream_error_message errorData (http_status response));
     throw (new_Error m));;
  data ← response_json response;
  generatedCode ← lift_result (generated_text data);
  when (bool_decide (generatedCode = []))
    (respond 500 (BError (lit "Failed to generate code")));;
  generation ← generation_create env
    {| data_prompt := trim (string_of prompt);
       data_language := string_of language;
       data_code := generatedCode;
       data_userId := if truthy userId then Some (string_of userId) else None |};
  respond 200 (BGeneration generation).

(** The rest of [generateCode] from the user check on. *)
Definition generate_checked (env : Env) (prompt language userId : value)
  : Handler unit :=
  when (truthy userId)
    (user ← user_findUnique env (string_of userId);
     when (negb (bool_decide (is_Some user)))
       (respond 404 (BError (lit "User not found"))));;
  generate_upstream env prompt language userId.

(** The user check lets the request through: either no user is named
    ([userId] is falsy) and nothing is looked up, or the named user is
    looked up and found. The second world is the one after the check. *)
Inductive passes_user_check (env : Env) (userId : value) (w : World)
  : World -> Prop :=
| no_user_named :
    truthy userId = false ->
    passes_user_check env userId w w
| user_found uid usr :
    userId = Some (JStr uid) -> uid <> [] ->
    user_findUnique_error env = None ->
    users (store w) !! uid = Some usr ->
    passes_user_check env userId w (log (DbUserFindUnique uid) w).

(** The request passes validation and the user check, and so reaches the
    upstream call in world [w1]. *)
Definition reaches_upstream (env : Env) (req : Request) (w w1 : World) : Prop :=
  ~ bad_prompt (prompt_of req) /\ ~ bad_language (language_of req) /\
  passes_user_check env (userId_of req) w w1.

(** The user reference stored with a generation: [userId || null]. *)
Definition user_reference (userId : value) : option jsstring :=
  match userId with
  | Some (JStr uid) => if bool_decide (uid = []) then None else Some uid
  | _ => None
  end.

(** The effect of the upstream call of a request. *)
Definition upstream_call (req : Request) : Effect :=
  HttpFetch (fullPrompt (string_of (language_of req)) (string_of (prompt_of req))).

(** The answer of the [catch] block when no marker is found in the message
    and the error carries no status. *)
Definition generate_500 (e : JsError) : Response :=
  {| res_status := 500;
     res_body :=
       BErrorMessage (lit "Failed to generate code")
         (if bool_decide (message e = []) then lit "An unexpected error occurred"
          else message e) |}.

(** The responses of [generateCode]. *)
Definition generate_400 (msg : jsstring) : Response :=
  {| res_status := 400; res_body := BError msg |}.
Definition generate_404 : Response :=
  {| res_status := 404; res_body := BError (lit "User not found") |}.
Definition generate_empty_500 : Response :=
  {| res_status := 500; res_body := BError (lit "Failed to generate code") |}.
Definition generate_401 : Response :=
  {| res_status := 401;
     res_body :=
       BErrorMessage (lit "Invalid Gemini API key")
         (lit "Please check your GEMINI_API_KEY in the .env file. Get your API key at https://makersuite.google.com/app/apikey") |}.
Definition generate_429 : Response :=
  {| res_status := 429;
     res_body :=
       BErrorMessage (lit "Gemini API quota exceeded")
         (lit "You have exceeded your Gemini API quota. Please check your usage at https://makersuite.google.com/app/apikey") |}.

(** The message of the [Error] thrown for an upstream answer that is not ok. *)
Definition upstream_failure (r : HttpResponse) : JsError :=
  let errorData :=
    match http_json r with
    | Parsed j => j
    | Unparsable _ =>
        JObj [(lit "error", JObj [(lit "message", JStr (http_statusText r))])]
    end in
  match upstream_error_message errorData (http_status r) with
  | inl e => e
  | inr m => new_Error m
  end.

(** The markers the [catch] block looks for in an error message. *)
Definition mentions_key (msg : jsstring) : bool :=
  includes msg (lit "API_KEY_INVALID") || includes msg (lit "API key").
Definition mentions_quota (msg : jsstring) : bool :=
  includes msg (lit "quota") || includes msg (lit "429").

(** The record [generation.create] stores for a request. *)
Definition created (env : Env) (prompt language code : jsstring)
    (user : option jsstring) : Generation :=
  {| gen_id := generated_id env;
     gen_prompt := trim prompt;
     gen_language := language;
     gen_code := code;
     gen_userId := user;
     gen_createdAt := current_timestamp env |}.

Definition is_write (e : Effect) : bool :=
  match e with DbGenerationCreate _ => true | _ => false end.
Definition is_fetch (e : Effect) : bool :=
  match e with HttpFetch _ => true | _ => false end.
Definition is_user_lookup (e : Effect) : bool :=
  match e with DbUserFindUnique _ => true | _ => false end.

(** ** Sample data *)

(** An environment in which the database answers and [fetch] ends as given. *)
Definition env_with (f : FetchResult) : Env :=
  {| user_findUnique_error := None;
     fetch_result := f;
     generation_create_error := None;
     generated_id := lit "gen-new";
     current_timestamp := 1763800000000;
     generation_count_error := None;
     generation_findMany_error := None;
     tie_rank := fun _ => 0 |}.

(** The body of a Gemini [generateContent] answer carrying [text]. *)
Definition gemini_reply (text : jsstring) : json :=
  JObj [(lit "candidates",
         JArr [JObj [(lit "content",
                      JObj [(lit "parts",
                             JArr [JObj [(lit "text", JStr text)]])])]])].

Definition gemini_error_body (msg : jsstring) : json :=
  JObj [(lit "error", JObj [(lit "message", JStr msg)])].

Definition http_reply (code : Z) (reason : jsstring) (j : json) : FetchResult :=
  FetchResolved {| http_status := code; http_statusText := reason;
                   http_json := Parsed j |}.

Definition env_hi : Env := env_with (http_reply 200 (lit "OK") (gemini_reply (lit "print('hi')"))).

Definition sample_generation (i : Z) : Generation :=
  {| gen_id := lit "gen-" ++ dec i;
     gen_prompt := lit "reverse a string";
     gen_language := lit "Python";
     gen_code := lit "print('hi')";
     gen_userId := None;
     gen_createdAt := 1763700000000 + i |}.

(** Twenty-five generations, oldest first. *)
Definition store25 : Store :=
  {| users := ∅; generations := sample_generation <$> seqZ 1 25 |}.

Definition world25 : World := {| store := store25; trace := [] |}.

(** A generation in a given language, created [t] milliseconds after the
    start of the sample data. *)
Definition sample_row (i : Z) (language : string) (t : Z) : Generation :=
  {| gen_id := lit "gen-" ++ dec i;
     gen_prompt := lit "reverse a string";
     gen_language := lit language;
     gen_code := lit "reverse";
     gen_userId := None;
     gen_createdAt := 1763700000000 + t |}.

(** Seven generations in three languages, oldest first; the fourth and the
    fifth were created in the same millisecond. *)
Definition store7 : Store :=
  {| users := ∅;
     generations :=
       [sample_row 1 "Python" 1; sample_row 2 "JavaScript" 2;
        sample_row 3 "Python" 3; sample_row 4 "Python" 4;
        sample_row 5 "TypeScript" 4; sample_row 6 "Python" 6;
        sample_row 7 "Python" 7] |}.

Definition world7 : World := {| store := store7; trace := [] |}.

(** An environment whose database, among rows of one timestamp, returns
    those of the language [first] before the others. *)
Definition env_ranking (first : string) : Env :=
  {| user_findUnique_error := None;
     fetch_result := FetchRejected (new_Error (lit "fetch failed"));
     generation_create_error := None;
     generated_id := lit "gen-new";
     current_timestamp := 1763800000000;
     generation_count_error := None;
     generation_findMany_error := None;
     tie_rank := fun g => if bool_decide (gen_language g = lit first) then 0 else 1 |}.

Definition empty_world : World :=
  {| store := {| users := ∅; generations := [] |}; trace := [] |}.

Definition query (page limit : option string) : Query :=
  {| q_page := lit <$> page; q_limit := lit <$> limit; q_language := None |}.

(** A request body with a prompt, a language and possibly a [userId]. *)
Definition request (prompt language : string) (userId : option json) : Request :=
  {| body := [(lit "prompt", JStr (lit prompt));
              (lit "language", JStr (lit language))]
             ++ from_option (fun u => [(lit "userId", u)]) [] userId |}.

Definition alice : User :=
  {| user_email := Some (lit "alice@example.com");
     user_name := Some (lit "Alice");
     user_createdAt := 1763600000000;
     user_updatedAt := 1763600000000 |}.

(** A store with one user and no generation yet. *)
Definition alice_world : World :=
  {| store := {| users := {[ lit "user-1" := alice ]}; generations := [] |};
     trace := [] |}.

Definition env_503 : Env :=
  env_with (http_reply 503 (lit "Service Unavailable")
              (gemini_error_body (lit "The model is overloaded. Please try again later."))).

Definition env_429 : Env :=
  env_with (http_reply 429 (lit "Too Many Requests")
              (gemini_error_body (lit "Too many requests"))).


(** ** Vocabulary of the further properties *)

(** The answer of the [catch] block of [generateCode] to an error. *)
Definition caught (e : JsError) : Response :=
  if mentions_key (message e) then generate_401
  else if mentions_quota (message e) then generate_429
  else match status e with
       | Some s =>
           if s =? 0 then generate_500 e
           else {| res_status := s;
                   res_body :=
                     BErrorMessage (lit "Gemini API error")
                       (if bool_decide (message e = [])
                        then lit "Failed to generate code" else message e) |}
       | None => generate_500 e
       end.

(** The errors the environment of a request can raise. *)
Definition env_errors (env : Env) : list JsError :=
  from_option (fun e => [e]) [] (user_findUnique_error env)
  ++ match fetch_result env with
     | FetchRejected e => [e]
     | FetchResolved r =>
         match http_json r with Unparsable e => [e] | Parsed _ => [] end
     end
  ++ from_option (fun e => [e]) [] (generation_create_error env).

(** The response after a run and the world it leaves. *)
Definition response_of (h : Handler unit) (w : World) : option Response :=
  fst (run h w).
Definition world_after (h : Handler unit) (w : World) : World :=
  snd (run h w).

(** The first validation check of [generateCode] that a request fails,
    with the message of its 400 answer. *)
Inductive validation_failure (req : Request) : jsstring -> Prop :=
| prompt_refused :
    bad_prompt (prompt_of req) ->
    validation_failure req (lit "Prompt is required and must be a non-empty string")
| language_missing :
    ~ bad_prompt (prompt_of req) ->
    (forall l, language_of req = Some (JStr l) -> l = []) ->
    validation_failure req (lit "Language is required and must be a string")
| language_unknown l :
    ~ bad_prompt (prompt_of req) ->
    language_of req = Some (JStr l) -> l <> [] -> l ∉ validLanguages ->
    validation_failure req
      (lit "Language must be one of: Python, JavaScript, C++, TypeScript")
| userId_refused :
    ~ bad_prompt (prompt_of req) -> ~ bad_language (language_of req) ->
    truthy (userId_of req) = true -> is_string (userId_of req) = false ->
    validation_failure req (lit "userId must be a string if provided").

(** The data [generateCode] passes to [generation.create]. *)
Definition create_data (req : Request) (code : jsstring) : CreateData :=
  {| data_prompt := trim (string_of (prompt_of req));
     data_language := string_of (language_of req);
     data_code := code;
     data_userId := user_reference (userId_of req) |}.

(** A string that neither starts nor ends with white space. *)
Definition no_outer_space (s : jsstring) : Prop :=
  (forall c r, s = c :: r -> is_trimmable c = false) /\
  (forall c r, s = r ++ [c] -> is_trimmable c = false).

(** The data invariant of the [generations] table: a non-empty trimmed
    prompt, one of the four languages, a non-empty trimmed code, and an
    owner, if any, that exists. *)
Definition well_formed (s : Store) (g : Generation) : Prop :=
  gen_prompt g <> [] /\ no_outer_space (gen_prompt g) /\
  gen_language g ∈ validLanguages /\
  gen_code g <> [] /\ no_outer_space (gen_code g) /\
  (forall uid, gen_userId g = Some uid -> uid <> [] /\ is_Some (users s !! uid)).

Definition store_ok (s : Store) : Prop :=
  Forall (well_formed s) (generations s).

(** The paths through [generateCode], each with its answer and the world
    it leaves: refused by validation; unknown user; failed user lookup;
    failed upstream call or unusable upstream body; no text; failed store
    write; generation stored. *)
Inductive generate_path (env : Env) (req : Request) (w : World)
  : Response -> World -> Prop :=
| path_refused msg :
    validation_failure req msg ->
    generate_path env req w (generate_400 msg) w
| path_unknown_user uid :
    ~ bad_prompt (prompt_of req) -> ~ bad_language (language_of req) ->
    userId_of req = Some (JStr uid) -> uid <> [] ->
    user_findUnique_error env = None -> users (store w) !! uid = None ->
    generate_path env req w generate_404 (log (DbUserFindUnique uid) w)
| path_lookup_failed uid e :
    ~ bad_prompt (prompt_of req) -> ~ bad_language (language_of req) ->
    userId_of req = Some (JStr uid) -> uid <> [] ->
    user_findUnique_error env = Some e ->
    generate_path env req w (caught e) (log (DbUserFindUnique uid) w)
| path_upstream_failed w1 e :
    reaches_upstream env req w w1 ->
    e ∈ env_errors env \/ status e = None ->
    generate_path env req w (caught e) (log (upstream_call req) w1)
| path_no_text w1 :
    reaches_upstream env req w w1 ->
    generate_path env req w generate_empty_500 (log (upstream_call req) w1)
| path_write_failed w1 code e :
    reaches_upstream env req w w1 -> code <> [] ->
    generation_create_error env = Some e ->
    generate_path env req w (caught e)
      (log (DbGenerationCreate (create_data req code))
         (log (upstream_call req) w1))
| path_stored w1 code :
    reaches_upstream env req w w1 -> code <> [] -> no_outer_space code ->
    generation_create_error env = None ->
    generate_path env req w
      {| res_status := 200;
         res_body :=
           BGeneration
             (created env (string_of (prompt_of req))
                (string_of (language_of req)) code
                (user_reference (userId_of req))) |}
      {| store :=
           {| users := users (store w1);
              generations :=
                generations (store w1)
                ++ [created env (string_of (prompt_of req))
                      (string_of (language_of req)) code
                      (user_reference (userId_of req))] |};
         trace := trace w1 ++ [upstream_call req;
                               DbGenerationCreate (create_data req code)] |}.

(** The query a client sends to read page [p] with the limit and the
    language of [q]: the page number in decimal. *)
Definition with_page (q : Query) (p : Z) : Query :=
  {| q_page := Some (dec p); q_limit := q_limit q; q_language := q_language q |}.

(** A query value that does not start, after white space and one optional
    sign, with a decimal digit. *)
Definition not_numeric (s : jsstring) : Prop :=
  match trim_start s with
  | [] => True
  | c :: r =>
      if bool_decide (c = 45%N \/ c = 43%N)
      then match r with [] => True | d :: _ => is_decimal_digit d = false end
      else is_decimal_digit c = false
  end.

(** The generations and the metadata in an answer of [getHistory]. *)
Definition response_rows (r : option Response) : list Generation :=
  match r with
  | Some {| res_body := BHistory gens _ |} => item_generation <$> gens
  | _ => []
  end.

Definition response_pagination (r : option Response) : option Pagination :=
  match r with
  | Some {| res_body := BHistory _ pg |} => Some pg
  | _ => None
  end.

Definition response_items (r : option Response) : list HistoryItem :=
  match r with
  | Some {| res_body := BHistory gens _ |} => gens
  | _ => []
  end.

(** ** The client (app/page.tsx) *)

Definition LANGUAGES : list jsstring :=
  [lit "Python"; lit "JavaScript"; lit "C++"; lit "TypeScript"].

(** The query of [fetchHistory(page)], which requests
    [/api/history?page=${page}&limit=10], as the server receives it. *)
Definition fetchHistory_query (page : Z) : Query :=
  {| q_page := Some (dec page); q_limit := Some (lit "10"); q_language := None |}.

(** The part of the component state that paging reads and writes. *)
Record PageState := {
  currentPage : Z;
  pagination : option Pagination }.

(** [handlePageChange(newPage)]: the state after it and the page it
    passes to [fetchHistory], if it fetches. *)
Definition handlePageChange (st : PageState) (newPage : Z)
  : PageState * option Z :=
  if (newPage >=? 1)
     && from_option (fun pg => newPage <=? pg_totalPages pg) false (pagination st)
  then ({| currentPage := newPage; pagination := pagination st |}, Some newPage)
  else (st, None).

(** The first lines of [handleGenerate]: a blank prompt is refused with a
    message and nothing is sent; otherwise the body [{prompt, language}] is
    posted to [/api/generate]. *)
Definition handleGenerate_request (prompt language : jsstring)
  : jsstring + Request :=
  if bool_decide (trim prompt = []) then inl (lit "Please enter a prompt")
  else inr {| body := [(lit "prompt", JStr prompt);
                       (lit "language", JStr language)] |}.

(** The text shown for a quota failure. *)
Definition quota_notice : jsstring :=
  lit "OpenAI API quota exceeded. Please check your billing at https://platform.openai.com/account/billing".

(** [errorData.error] and [errorData.message] of a response body. *)
Definition body_error (b : Body) : value :=
  match b with
  | BError e | BErrorMessage e _ => Some (JStr e)
  | _ => None
  end.

Definition body_message (b : Body) : value :=
  match b with
  | BErrorMessage _ m => Some (JStr m)
  | _ => None
  end.

(** The text [handleGenerate] hands to [setError] for an answer that is not
    ok. The handler throws [JSON.stringify({error, message: errorMessage})]
    as an [Error] and parses it back in its [catch] block; the parse returns
    the two fields, which is what is modelled. *)
Definition handleGenerate_error (b : Body) : jsstring :=
  let error := body_error b in
  let message := body_message b in
  let errorMessage :=
    if truthy message then string_of message
    else if truthy error then string_of error
    else lit "Failed to generate code" in
  if is_string error
     && bool_decide (string_of error = lit "OpenAI API quota exceeded")
     || includes errorMessage (lit "quota")
  then quota_notice
  else errorMessage.

(** * Properties *)

(** ** Unfolding handler code *)

(** The combinators of the handler monad, unfolded on demand. *)
Ltac hsimpl :=
  cbv [mbind mret handler_bind handler_ret when respond throw perform gets
       put_store rejects_with try_catch run lift_result log negb orb andb];
  cbn [store trace fst snd].

Section History.

Context (env : Env) (q : Query) (w : World).

Lemma getHistory_bad_page :
  page_of q < 1 ->
  run (getHistory env q) w = (Some history_400_page, w).
Proof.
  intros Hp. unfold getHistory.
  replace (page_of q <? 1) with true by (symmetry; apply Z.ltb_lt; lia).
  reflexivity.
Qed.

Lemma getHistory_bad_limit :
  1 <= page_of q -> limit_of q < 1 \/ 100 < limit_of q ->
  run (getHistory env q) w = (Some history_400_limit, w).
Proof.
  intros Hp Hl. unfold getHistory.
  replace (page_of q <? 1) with false by (symmetry; apply Z.ltb_ge; lia).
  replace ((limit_of q <? 1) || (limit_of q >? 100)) with true.
  - reflexivity.
  - symmetry. apply orb_true_iff. rewrite Z.ltb_lt, Z.gtb_gt. lia.
Qed.

Lemma getHistory_valid :
  1 <= page_of q -> 1 <= limit_of q <= 100 ->
  run (getHistory env q) w =
    let w1 := log (DbGenerationCount (where_of q)) w in
    let w2 := log (DbGenerationFindMany (where_of q)
                     ((page_of q - 1) * limit_of q) (limit_of q)) w1 in
    match generation_count_error env, generation_findMany_error env with
    | None, None => (Some (history_200 env q (store w)), w2)
    | _, _ => (Some history_500, w2)
    end.
Proof.
  intros Hp Hl. unfold getHistory.
  replace (page_of q <? 1) with false by (symmetry; apply Z.ltb_ge; lia).
  replace ((limit_of q <? 1) || (limit_of q >? 100)) with false.
  2:{ symmetry. apply orb_false_iff. rewrite Z.ltb_ge.
      split; [lia|]. rewrite Z.gtb_ltb. apply Z.ltb_ge. lia. }
  unfold generation_count, generation_findMany.
  destruct (generation_count_error env) as [e1|],
           (generation_findMany_error env) as [e2|]; reflexivity.
Qed.

End History.

(** ** parseInt on strings that start with decimal digits *)

Lemma digit_value_decimal c :
  is_decimal_digit c = true ->
  digit_value c = Some (Z.of_N c - 48) /\ 0 <= Z.of_N c - 48 < 10.
Proof.
  unfold is_decimal_digit, digit_value. intros H. rewrite H.
  apply andb_true_iff in H as [H1 H2].
  apply N.leb_le in H1, H2. split; [reflexivity | lia].
Qed.

Lemma digit_value_other c d :
  is_decimal_digit c = false -> digit_value c = Some d -> 10 <= d.
Proof.
  unfold is_decimal_digit, digit_value. intros ->.
  repeat case_match; intros [= <-];
    repeat match goal with
           | H : (_ && _)%bool = true |- _ => apply andb_true_iff in H as [? ?]
           | H : (_ <=? _)%N = true |- _ => apply N.leb_le in H
           end; lia.
Qed.

Lemma is_decimal_digit_not_trimmable c :
  is_decimal_digit c = true -> is_trimmable c = false.
Proof.
  unfold is_decimal_digit. intros H.
  apply andb_true_iff in H as [H1 H2]. apply N.leb_le in H1, H2.
  unfold is_trimmable, is_white_space, is_line_terminator.
  repeat match goal with
         | |- context [(c =? ?k)%N] =>
             replace (c =? k)%N with false by (symmetry; apply N.eqb_neq; lia)
         end.
  replace (0x2000 <=? c)%N with false by (symmetry; apply N.leb_gt; lia).
  reflexivity.
Qed.

Lemma parse_digits_decimal ds rest acc :
  Forall (fun c => is_decimal_digit c = true) ds ->
  match rest with [] => True | c :: _ => is_decimal_digit c = false end ->
  parse_digits 10 (ds ++ rest) (Some acc) =
    Some (fold_left (fun a c => a * 10 + (Z.of_N c - 48)) ds acc).
Proof.
  intros Hds Hrest. revert acc.
  induction Hds as [|c ds Hc _ IH]; intros acc; cbn [app fold_left].
  - destruct rest as [|c rest]; [reflexivity|]. cbn [parse_digits].
    destruct (digit_value c) as [d|] eqn:Hd; [|reflexivity].
    apply digit_value_other in Hd; [|assumption].
    replace (d <? 10) with false by (symmetry; apply Z.ltb_ge; lia).
    reflexivity.
  - cbn [parse_digits]. destruct (digit_value_decimal c Hc) as [-> Hr].
    replace (Z.of_N c - 48 <? 10) with true by (symmetry; apply Z.ltb_lt; lia).
    cbn [default]. apply IH.
Qed.

Lemma fold_decimal_nonneg ds acc :
  Forall (fun c => is_decimal_digit c = true) ds -> 0 <= acc ->
  acc <= fold_left (fun a c => a * 10 + (Z.of_N c - 48)) ds acc.
Proof.
  intros Hds. revert acc.
  induction Hds as [|c ds Hc _ IH]; intros acc Hacc; cbn [fold_left]; [lia|].
  destruct (digit_value_decimal c Hc) as [_ Hr].
  etransitivity; [|apply IH]; lia.
Qed.

Lemma decimal_value_nonneg ds :
  Forall (fun c => is_decimal_digit c = true) ds -> 0 <= decimal_value ds.
Proof. intros H. apply (fold_decimal_nonneg ds 0 H). lia. Qed.

(** A string made of decimal digits denoting a non-zero number, followed by
    a character that is not a decimal digit, parses to that number. *)
Lemma parseInt_decimal_prefix ds c rest :
  ds <> [] ->
  Forall (fun c => is_decimal_digit c = true) ds ->
  is_decimal_digit c = false ->
  decimal_value ds <> 0 ->
  parseInt (ds ++ c :: rest) = Some (decimal_value ds).
Proof.
  intros Hne Hds Hc Hv.
  destruct ds as [|d ds]; [done|].
  apply Forall_cons in Hds as [Hd Hds].
  pose proof (is_decimal_digit_not_trimmable d Hd) as Ht.
  assert (Hsign : (d =? 45)%N = false /\ (d =? 43)%N = false).
  { unfold is_decimal_digit in Hd. apply andb_true_iff in Hd as [H1 H2].
    apply N.leb_le in H1, H2. split; apply N.eqb_neq; lia. }
  destruct Hsign as [Hm Hp].
  unfold parseInt. cbn [app trim_start]. rewrite Ht, Hm, Hp.
  assert (Hdec :
    parse_digits 10 (d :: ds ++ c :: rest) None = Some (decimal_value (d :: ds))).
  { cbn [parse_digits]. destruct (digit_value_decimal d Hd) as [-> Hr].
    replace (Z.of_N d - 48 <? 10) with true by (symmetry; apply Z.ltb_lt; lia).
    cbn [default]. rewrite parse_digits_decimal by assumption. reflexivity. }
  destruct ds as [|d2 ds].
  - (* one digit: it is not 0, so no 0x prefix *)
    cbn [app]. cbn [app] in Hdec.
    assert (Hd0 : (d =? 48)%N = false).
    { apply N.eqb_neq. intros ->. apply Hv. reflexivity. }
    rewrite Hd0. cbn [andb]. rewrite Hdec. f_equal. lia.
  - (* the second character is a digit, not x *)
    cbn [app]. cbn [app] in Hdec.
    apply Forall_cons in Hds as [Hd2 _].
    assert (Hx : ((d2 =? 120) || (d2 =? 88))%N = false).
    { unfold is_decimal_digit in Hd2. apply andb_true_iff in Hd2 as [H1 H2].
      apply N.leb_le in H1, H2. apply orb_false_iff.
      split; apply N.eqb_neq; lia. }
    rewrite Hx, andb_false_r. rewrite Hdec. f_equal. lia.
Qed.

(** ** Numbers written in decimal and read back *)

Lemma lit_cons a s : lit (String a s) = N_of_ascii a :: lit s.
Proof. reflexivity. Qed.

Ltac eval_ascii :=
  repeat match goal with
         | |- context [N_of_ascii ?a] =>
             let v := eval vm_compute in (N_of_ascii a) in
             change (N_of_ascii a) with v
         end.

Lemma uint_digits d :
  Forall (fun c => is_decimal_digit c = true) (lit (NilEmpty.string_of_uint d)).
Proof.
  induction d; cbn [NilEmpty.string_of_uint]; [constructor|..];
    rewrite lit_cons; constructor; done.
Qed.

Lemma uint_value_acc d p :
  fold_left (fun a c => a * 10 + (Z.of_N c - 48))
    (lit (NilEmpty.string_of_uint d)) (Z.pos p)
  = Z.pos (Pos.of_uint_acc d p).
Proof.
  revert p. induction d; intros p; [reflexivity|..];
    cbn [NilEmpty.string_of_uint Pos.of_uint_acc]; rewrite lit_cons;
    cbn [fold_left]; rewrite <- IHd; f_equal; eval_ascii; lia.
Qed.

Lemma uint_value d :
  decimal_value (lit (NilEmpty.string_of_uint d)) = Z.of_N (Pos.of_uint d).
Proof.
  unfold decimal_value.
  induction d; [reflexivity|..];
    cbn [NilEmpty.string_of_uint Pos.of_uint]; rewrite lit_cons;
    cbn [fold_left]; eval_ascii;
    [exact IHd | apply (uint_value_acc d) ..].
Qed.

Lemma to_uint_not_nil p : lit (NilEmpty.string_of_uint (Pos.to_uint p)) <> [].
Proof.
  intros H. pose proof (DecimalPos.Unsigned.of_to p) as Hp.
  destruct (Pos.to_uint p); [discriminate Hp|..]; discriminate H.
Qed.

(** A string of decimal digits parses to the number it denotes, and to its
    opposite behind a minus sign. *)
Lemma parseInt_digits ds :
  ds <> [] -> Forall (fun c => is_decimal_digit c = true) ds ->
  parseInt ds = Some (decimal_value ds) /\
  parseInt (45%N :: ds) = Some (- decimal_value ds).
Proof.
  intros Hne Hds.
  destruct ds as [|d ds]; [done|].
  apply Forall_cons in Hds as [Hd Hds].
  assert (Hnox : match ds with
                 | x :: _ => ((x =? 120) || (x =? 88))%N = false
                 | [] => True
                 end).
  { destruct ds as [|d2 ds]; [done|].
    apply Forall_cons in Hds as [Hd2 _].
    unfold is_decimal_digit in Hd2. apply andb_true_iff in Hd2 as [H1 H2].
    apply N.leb_le in H1, H2. apply orb_false_iff.
    split; apply N.eqb_neq; lia. }
  assert (Hval : parse_digits 10 (d :: ds) None = Some (decimal_value (d :: ds))).
  { cbn [parse_digits]. destruct (digit_value_decimal d Hd) as [-> Hr].
    replace (Z.of_N d - 48 <? 10) with true by (symmetry; apply Z.ltb_lt; lia).
    cbn [default]. rewrite <- (app_nil_r ds).
    rewrite parse_digits_decimal by done. by rewrite app_nil_r. }
  pose proof (is_decimal_digit_not_trimmable d Hd) as Ht.
  assert (Hsign : (d =? 45)%N = false /\ (d =? 43)%N = false).
  { unfold is_decimal_digit in Hd. apply andb_true_iff in Hd as [H1 H2].
    apply N.leb_le in H1, H2. split; apply N.eqb_neq; lia. }
  destruct Hsign as [Hm Hp].
  split.
  - unfold parseInt. cbn [trim_start]. rewrite Ht, Hm, Hp.
    destruct ds as [|d2 ds].
    + rewrite Hval. f_equal; lia.
    + rewrite Hnox, andb_false_r, Hval. f_equal; lia.
  - unfold parseInt. cbn [trim_start].
    change (is_trimmable 45) with false. cbn [N.eqb Pos.eqb].
    destruct ds as [|d2 ds].
    + rewrite Hval. f_equal; lia.
    + rewrite Hnox, andb_false_r, Hval. f_equal; lia.
Qed.

(** The decimal rendering of an integer parses back to it. *)
Lemma parseInt_dec n : parseInt (dec n) = Some n.
Proof.
  unfold dec. destruct n as [|p|p]; [reflexivity|..];
    cbn [Z.to_int NilEmpty.string_of_int].
  - destruct (parseInt_digits _ (to_uint_not_nil p) (uint_digits _)) as [-> _].
    rewrite uint_value, DecimalPos.Unsigned.of_to. reflexivity.
  - rewrite lit_cons. change (N_of_ascii "-") with 45%N.
    destruct (parseInt_digits _ (to_uint_not_nil p) (uint_digits _)) as [_ ->].
    rewrite uint_value, DecimalPos.Unsigned.of_to. reflexivity.
Qed.

(** ** Ordering and pagination arithmetic *)

#[global] Instance newer_or_same_trans : Transitive newer_or_same.
Proof. unfold newer_or_same. intros x y z ? ?. lia. Qed.

#[global] Instance newer_or_same_total : Total newer_or_same.
Proof. unfold newer_or_same. intros x y. lia. Qed.

#[global] Instance returned_before_trans env : Transitive (returned_before env).
Proof. unfold returned_before. intros x y z ? ?. lia. Qed.

#[global] Instance returned_before_total env : Total (returned_before env).
Proof. unfold returned_before. intros x y. lia. Qed.

Lemma returned_before_newer env g1 g2 :
  returned_before env g1 g2 -> newer_or_same g1 g2.
Proof. unfold returned_before, newer_or_same. lia. Qed.

Lemma StronglySorted_weaken {A} (R S : relation A) (l : list A) :
  (forall x y, R x y -> S x y) -> StronglySorted R l -> StronglySorted S l.
Proof.
  intros HRS. induction 1 as [|x l _ IH Hx]; constructor; [exact IH|].
  eapply Forall_impl; [exact Hx|]. intros y. apply HRS.
Qed.

(** The rows of a [findMany] answer before [skip] and [take]: whatever the
    database does with equal timestamps, no row comes before a newer one. *)
Lemma newest_first_sorted env (l : list Generation) :
  StronglySorted newer_or_same (merge_sort (returned_before env) l).
Proof.
  apply (StronglySorted_weaken (returned_before env)).
  - apply returned_before_newer.
  - apply StronglySorted_merge_sort; apply _.
Qed.

Lemma newest_first_length env (l : list Generation) :
  length (merge_sort (returned_before env) l) = length l.
Proof. apply Permutation_length, merge_sort_Permutation. Qed.



(** [ceil_div total limit] is the least number of pages of [limit] rows
    that hold [total] rows. *)
Lemma ceil_div_spec total limit :
  0 < limit ->
  total <= ceil_div total limit * limit < total + limit.
Proof.
  intros Hl. unfold ceil_div.
  pose proof (Z.div_mod (- total) limit ltac:(lia)) as Hdm.
  pose proof (Z.mod_pos_bound (- total) limit Hl) as Hm.
  nia.
Qed.


(** ** The history endpoint *)

Example history_25_page1 :
  fst (run (getHistory env_hi (query (Some "1") (Some "10"))%string) world25) =
    Some {| res_status := 200;
            res_body :=
              BHistory
                ((fun i => {| item_generation := sample_generation i;
                              item_user := None |})
                   <$> [25; 24; 23; 22; 21; 20; 19; 18; 17; 16])
                {| pg_page := 1; pg_limit := 10; pg_total := 25;
                   pg_totalPages := 3; pg_hasNext := true;
                   pg_hasPrev := false |} |}.
Proof. vm_compute. reflexivity. Qed.

Example history_25_page4 :
  fst (run (getHistory env_hi (query (Some "4") (Some "10"))%string) world25) =
    Some {| res_status := 200;
            res_body :=
              BHistory []
                {| pg_page := 4; pg_limit := 10; pg_total := 25;
                   pg_totalPages := 3; pg_hasNext := false;
                   pg_hasPrev := true |} |}.
Proof. vm_compute. reflexivity. Qed.

Example history_negative_page_rejected :
  fst (run (getHistory env_hi (query (Some "-1") None)%string) world25) =
    Some history_400_page.
Proof. vm_compute. reflexivity. Qed.

Example history_limit_101_rejected :
  fst (run (getHistory env_hi (query None (Some "101"))%string) world25) =
    Some history_400_limit.
Proof. vm_compute. reflexivity. Qed.

Example history_non_numeric_defaults :
  page_of (query (Some "abc") (Some "many"))%string = 1 /\
  limit_of (query (Some "abc") (Some "many"))%string = 10.
Proof. split; reflexivity. Qed.

(** C1. The values ["0"] of [page] and of [limit] are not rejected: [0] is
    falsy, so [parseInt(..) || 1] and [parseInt(..) || 10] replace it by the
    default before the range checks run. Whatever the state of the store,
    the request is answered with 200 (or with 500 when the database fails),
    never with the 400 of the range checks. *)
Theorem history_zero_replaced_by_default (env : Env) (w : World) :
  let qp := query (Some "0"%string) None in
  let ql := query None (Some "0"%string) in
  parseInt_param (q_page qp) = Some 0 /\ page_of qp = 1 /\
  parseInt_param (q_limit ql) = Some 0 /\ limit_of ql = 10 /\
  (fst (run (getHistory env qp) w) = Some (history_200 env qp (store w)) \/
   fst (run (getHistory env qp) w) = Some history_500) /\
  (fst (run (getHistory env ql) w) = Some (history_200 env ql (store w)) \/
   fst (run (getHistory env ql) w) = Some history_500) /\
  res_status (history_200 env qp (store w)) = 200 /\
  pg_page_of (res_body (history_200 env qp (store w))) = Some 1 /\
  pg_limit_of (res_body (history_200 env ql (store w))) = Some 10.
Proof.
  intros qp ql.
  assert (Hp : forall q, page_of q = 1 -> limit_of q = 10 ->
     fst (run (getHistory env q) w) = Some (history_200 env q (store w)) \/
     fst (run (getHistory env q) w) = Some history_500).
  { intros q Hpage Hlimit.
    rewrite getHistory_valid by lia. cbn zeta.
    destruct (generation_count_error env), (generation_findMany_error env);
      cbn [fst]; auto. }
  repeat split; try reflexivity; apply Hp; reflexivity.
Qed.

(** ** What the order of an answer leaves open *)

Lemma matching_none s : matching None s = generations s.
Proof.
  unfold matching. cbn [matches_where].
  induction (generations s) as [|g gs IH]; [done|].
  by rewrite filter_cons_True, IH.
Qed.

(** The rows of a [findMany] answer before [skip] and [take] keep the
    promise of [orderBy], whatever the database does with equal
    timestamps. *)
Lemma findMany_newest_first env (l : list Generation) :
  newest_first l (merge_sort (returned_before env) l).
Proof. split; [apply merge_sort_Permutation | apply newest_first_sorted]. Qed.

Lemma same_timestamp_same_row (l : list Generation) g1 g2 :
  distinct_timestamps l -> g1 ∈ l -> g2 ∈ l ->
  gen_createdAt g1 = gen_createdAt g2 -> g1 = g2.
Proof.
  unfold distinct_timestamps.
  induction l as [|a l IH]; cbn [fmap list_fmap]; intros Hd H1 H2 Ht.
  { by apply elem_of_nil in H1. }
  apply NoDup_cons in Hd as [Ha Hd].
  apply elem_of_cons in H1 as [-> | H1]; apply elem_of_cons in H2 as [-> | H2].
  - reflexivity.
  - exfalso. apply Ha. rewrite Ht. by apply list_elem_of_fmap_2.
  - exfalso. apply Ha. rewrite <- Ht. by apply list_elem_of_fmap_2.
  - by apply IH.
Qed.

(** When no two rows have the same timestamp, [orderBy] leaves nothing
    open: there is one newest-first order. *)
Lemma newest_first_unique (found o1 o2 : list Generation) :
  distinct_timestamps found ->
  newest_first found o1 -> newest_first found o2 -> o1 = o2.
Proof.
  intros Hd [Hp1 Hs1] [Hp2 Hs2].
  apply (StronglySorted_unique_strong newer_or_same); [|done|done|].
  - intros x1 x2 Hx1 Hx2 H12 H21.
    apply (same_timestamp_same_row found); [done| | |].
    + by rewrite <- Hp1.
    + by rewrite <- Hp2.
    + unfold newer_or_same in H12, H21. lia.
  - by rewrite Hp1, Hp2.
Qed.

Lemma findMany_order_unique env1 env2 (l : list Generation) :
  distinct_timestamps l ->
  merge_sort (returned_before env1) l = merge_sort (returned_before env2) l.
Proof.
  intros Hd. apply (newest_first_unique l); [done|..]; apply findMany_newest_first.
Qed.

(** In [with_tie_order env ordered] a row is ranked by its place in
    [ordered]. *)
Lemma tie_rank_position env (ordered : list Generation) i g :
  NoDup ordered -> ordered !! i = Some g ->
  tie_rank (with_tie_order env ordered) g = Z.of_nat i.
Proof.
  intros Hnd Hi. cbn [tie_rank with_tie_order].
  assert (Hfind : list_find (fun x => x = g) ordered = Some (i, g)).
  { apply list_find_Some. split; [done|]. split; [done|].
    intros j y Hj Hlt ->. pose proof (NoDup_lookup _ _ _ _ Hnd Hi Hj). lia. }
  by rewrite Hfind.
Qed.

Lemma tie_order_sorted env (ordered pre suf : list Generation) :
  NoDup ordered -> ordered = pre ++ suf ->
  StronglySorted newer_or_same suf ->
  StronglySorted (returned_before (with_tie_order env ordered)) suf.
Proof.
  intros Hnd. revert pre.
  induction suf as [|x suf IH]; intros pre Heq Hs; [constructor|].
  apply StronglySorted_inv in Hs as [Hs Hx].
  constructor.
  - apply (IH (pre ++ [x])); [|done]. by rewrite <- (assoc_L (++)).
  - rewrite Forall_forall in Hx |- *. intros y Hy.
    apply list_elem_of_lookup in Hy as [k Hk].
    assert (Hrx : tie_rank (with_tie_order env ordered) x = Z.of_nat (length pre)).
    { apply tie_rank_position; [done|]. rewrite Heq.
      by rewrite lookup_app_r, Nat.sub_diag by lia. }
    assert (Hry : tie_rank (with_tie_order env ordered) y
                  = Z.of_nat (length pre + S k)).
    { apply tie_rank_position; [done|]. rewrite Heq.
      rewrite lookup_app_r by lia.
      replace (length pre + S k - length pre)%nat with (S k) by lia. done. }
    specialize (Hx y (list_elem_of_lookup_2 _ _ _ Hk)).
    unfold returned_before, newer_or_same in *. lia.
Qed.

(** Every newest-first order of the rows found is the order of the answer
    in some environment: the model lets the database order rows of one
    timestamp in any way. (The rows differ from one another, as they do by
    their primary key.) *)
Lemma every_order_returned env (found ordered : list Generation) :
  NoDup found -> newest_first found ordered ->
  merge_sort (returned_before (with_tie_order env ordered)) found = ordered.
Proof.
  intros Hnd [Hperm Hsorted].
  assert (Hnd' : NoDup ordered) by by rewrite Hperm.
  apply (StronglySorted_unique_strong (returned_before (with_tie_order env ordered))).
  - intros x1 x2 Hx1 Hx2 H12 H21.
    rewrite merge_sort_Permutation, <- Hperm in Hx1.
    apply list_elem_of_lookup in Hx1 as [i Hi], Hx2 as [j Hj].
    pose proof (tie_rank_position env _ _ _ Hnd' Hi) as Hri.
    pose proof (tie_rank_position env _ _ _ Hnd' Hj) as Hrj.
    assert (i = j) by (unfold returned_before in *; lia). subst j.
    congruence.
  - apply StronglySorted_merge_sort; apply _.
  - by apply (tie_order_sorted env ordered []).
  - by rewrite merge_sort_Permutation, Hperm.
Qed.

(** The Python rows of [store7] have timestamps of their own. *)
Lemma store7_python_distinct :
  distinct_timestamps (matching (Some (lit "Python")) store7).
Proof. apply (bool_decide_unpack _). vm_compute. exact I. Qed.



(** Every run of [getHistory] answers, leaves the store as it found it, and
    its answer is a function of the store (not of the effect trace). *)
Lemma getHistory_reads_only (env : Env) (q : Query) (s : Store) :
  exists r effs, forall t,
    run (getHistory env q) {| store := s; trace := t |} =
      (Some r, {| store := s; trace := t ++ effs |}).
Proof.
  destruct (Z.lt_ge_cases (page_of q) 1) as [Hp|Hp].
  { exists history_400_page, []. intros t.
    rewrite getHistory_bad_page by assumption. by rewrite app_nil_r. }
  destruct (decide (1 <= limit_of q <= 100)) as [Hl|Hl].
  - destruct (generation_count_error env) eqn:Hc,
             (generation_findMany_error env) eqn:Hf;
      eexists _, _; intros t;
      rewrite getHistory_valid by (assumption || lia); cbn zeta;
      rewrite Hc, ?Hf; unfold log; cbn [store trace];
      rewrite <- ?(assoc_L (++)); reflexivity.
  - exists history_400_limit, []. intros t.
    rewrite getHistory_bad_limit by lia. by rewrite app_nil_r.
Qed.

(** The answer of [getHistory] in closed form. *)
Lemma getHistory_response (env : Env) (q : Query) (w : World) :
  fst (run (getHistory env q) w) =
    Some (if bool_decide (page_of q < 1) then history_400_page
          else if bool_decide (1 <= limit_of q <= 100)
          then match generation_count_error env, generation_findMany_error env with
               | None, None => history_200 env q (store w)
               | _, _ => history_500
               end
          else history_400_limit).
Proof.
  case_bool_decide as Hp.
  { by rewrite getHistory_bad_page. }
  case_bool_decide as Hl.
  - rewrite getHistory_valid by lia. cbn zeta.
    by destruct (generation_count_error env), (generation_findMany_error env).
  - by rewrite getHistory_bad_limit by lia.
Qed.

(** C8 (amended). [getHistory] is read-only: the store after a call is the
    store before it, and every call is answered. A second call with the
    same query on the same store, the database answering both calls or
    neither, reports the same status and the same pagination; and it
    returns the same answer altogether when no two of the rows found have
    the same timestamp. Nothing else of the environment (the time, the
    effects so far, the answers of other services) enters the answer. *)
Theorem history_read_only_repeatable (env : Env) (q : Query) (w : World) :
  store (snd (run (getHistory env q) w)) = store w /\
  is_Some (fst (run (getHistory env q) w)) /\
  forall env' w',
    store w' = store w ->
    (database_answers env <-> database_answers env') ->
    res_status <$> fst (run (getHistory env' q) w')
      = res_status <$> fst (run (getHistory env q) w) /\
    response_pagination (fst (run (getHistory env' q) w'))
      = response_pagination (fst (run (getHistory env q) w)) /\
    (distinct_timestamps (matching (where_of q) (store w)) ->
     fst (run (getHistory env' q) w') = fst (run (getHistory env q) w)).
Proof.
  split.
  { destruct (getHistory_reads_only env q (store w)) as (r & effs & Hrun).
    destruct w as [s t0]. cbn [store] in *. by rewrite Hrun. }
  split; [rewrite getHistory_response; by eexists|].
  intros env' w' Hstore Hdb. rewrite !getHistory_response, Hstore.
  case_bool_decide as Hp; [done|].
  case_bool_decide as Hl; [|done].
  unfold database_answers in Hdb.
  destruct (generation_count_error env) as [e1|],
           (generation_findMany_error env) as [e2|],
           (generation_count_error env') as [e1'|],
           (generation_findMany_error env') as [e2'|];
    try done;
    try (exfalso; destruct Hdb as [Hdb1 Hdb2];
         first [by destruct Hdb1 | by destruct Hdb2]).
  split; [reflexivity|]. split; [reflexivity|].
  intros Hd. unfold history_200, history_rows.
  by rewrite (findMany_order_unique env' env).
Qed.

Lemma history_read_only_repeatable_witness :
  let q := {| q_page := Some (lit "2"); q_limit := Some (lit "2");
              q_language := Some (lit "Python") |} in
  let first := run (getHistory (env_ranking "Python") q) world7 in
  let second := run (getHistory (env_ranking "TypeScript") q) (snd first) in
  (store (snd first) = store world7 /\
   (database_answers (env_ranking "Python") <->
    database_answers (env_ranking "TypeScript")) /\
   distinct_timestamps (matching (where_of q) (store world7))) /\
  fst second = fst first /\
  response_rows (fst first) = [sample_row 4 "Python" 4; sample_row 3 "Python" 3].
Proof.
  intros q first second.
  destruct (history_read_only_repeatable (env_ranking "Python") q world7)
    as (Hstore & _ & Hrepeat).
  assert (Hdb : database_answers (env_ranking "Python") <->
                database_answers (env_ranking "TypeScript"))
    by (split; intros _; split; reflexivity).
  assert (Hd : distinct_timestamps (matching (where_of q) (store world7)))
    by exact store7_python_distinct.
  split; [exact (conj Hstore (conj Hdb Hd))|].
  destruct (Hrepeat (env_ranking "TypeScript") (snd first) Hstore Hdb)
    as (_ & _ & Hsame).
  split; [exact (Hsame Hd) | reflexivity].
Defined.

(** C8 as stated fails when rows share a timestamp. The fourth and the
    fifth generation of [store7] were created in the same millisecond; the
    query orders by [createdAt] only, so the database may return them in
    either order. Asked twice for the third row, with nothing written in
    between, the endpoint answers with the Python row when the database
    puts that one first and with the TypeScript row when it puts the other
    first. *)
Lemma history_read_only_repeatable_counterexample :
  let q := query (Some "3"%string) (Some "1"%string) in
  let first := run (getHistory (env_ranking "Python") q) world7 in
  let second := run (getHistory (env_ranking "TypeScript") q) (snd first) in
  database_answers (env_ranking "Python") /\
  database_answers (env_ranking "TypeScript") /\
  gen_createdAt (sample_row 4 "Python" 4) = gen_createdAt (sample_row 5 "TypeScript" 4) /\
  store (snd first) = store world7 /\
  response_rows (fst first) = [sample_row 4 "Python" 4] /\
  response_rows (fst second) = [sample_row 5 "TypeScript" 4] /\
  fst second <> fst first.
Proof.
  cbn zeta. repeat split; try reflexivity.
  intros H. apply (f_equal response_rows) in H. vm_compute in H. discriminate H.
Qed.

(** C10 (amended). When [page] or [limit] starts with decimal digits that
    denote a non-zero number, at most [MAX_SAFE_INTEGER], and continues
    with a character that is not a decimal digit, the parameter takes the
    value of the digits; no default is substituted and the range checks are
    made on that value. (Digits that denote a larger number are read as the
    double nearest to it.) *)
Theorem history_digit_prefix (env : Env) (q : Query) (w : World)
    (ds : jsstring) (c : N) (rest : jsstring) :
  ds <> [] ->
  Forall (fun d => is_decimal_digit d = true) ds ->
  is_decimal_digit c = false ->
  decimal_value ds <> 0 ->
  decimal_value ds <= MAX_SAFE_INTEGER ->
  let s := ds ++ c :: rest in
  let v := decimal_value ds in
  1 <= v /\
  (q_page q = Some s ->
     page_of q = v /\
     fst (run (getHistory env q) w) <> Some history_400_page) /\
  (q_limit q = Some s ->
     limit_of q = v /\
     (1 <= page_of q ->
        (fst (run (getHistory env q) w) = Some history_400_limit <-> 100 < v))).
Proof.
  intros Hne Hds Hc Hv _ s v.
  pose proof (decimal_value_nonneg ds Hds) as Hnn.
  assert (Hparse : or_number (parseInt s) 1 = v /\ or_number (parseInt s) 10 = v).
  { unfold s. rewrite parseInt_decimal_prefix by assumption.
    unfold or_number. fold v.
    replace (v =? 0) with false by (symmetry; apply Z.eqb_neq; exact Hv).
    done. }
  destruct Hparse as [Hp1 Hp10].
  split; [unfold v; lia|]. split.
  - intros Hq.
    assert (Hpage : page_of q = v) by (unfold page_of; rewrite Hq; exact Hp1).
    split; [exact Hpage|].
    destruct (decide (1 <= limit_of q <= 100)) as [Hl|Hl].
    + rewrite getHistory_valid by (assumption || (unfold v in *; lia)). cbn zeta.
      destruct (generation_count_error env), (generation_findMany_error env);
        cbn [fst]; intros H;
        apply (f_equal (fmap (M:=option) res_status)) in H; discriminate H.
    + rewrite getHistory_bad_limit by (unfold v in *; lia).
      cbn [fst]. intros H.
      apply (f_equal (fmap (M:=option) res_body)) in H.
      vm_compute in H. discriminate H.
  - intros Hq.
    assert (Hlimit : limit_of q = v) by (unfold limit_of; rewrite Hq; exact Hp10).
    split; [exact Hlimit|]. intros Hpage.
    destruct (Z.lt_ge_cases 100 v) as [Hbig|Hsmall].
    + rewrite getHistory_bad_limit by lia. done.
    + rewrite getHistory_valid by (unfold v in *; lia). cbn zeta.
      split; [|lia].
      destruct (generation_count_error env), (generation_findMany_error env);
        cbn [fst]; intros H;
        apply (f_equal (fmap (M:=option) res_status)) in H; discriminate H.
Qed.

Lemma history_digit_prefix_witness :
  let q := {| q_page := Some (lit "3abc"); q_limit := Some (lit "3abc");
              q_language := None |} in
  (lit "3" <> [] /\ is_decimal_digit 97 = false /\ decimal_value (lit "3") <> 0 /\
   decimal_value (lit "3") <= MAX_SAFE_INTEGER) /\
  page_of q = 3 /\ limit_of q = 3 /\
  fst (run (getHistory env_hi q) world25) <> Some history_400_page.
Proof.
  intros q.
  assert (H1 : lit "3" <> []) by discriminate.
  assert (H2 : Forall (fun d => is_decimal_digit d = true) (lit "3"))
    by (repeat constructor).
  assert (H3 : is_decimal_digit 97 = false) by reflexivity.
  assert (H4 : decimal_value (lit "3") <> 0) by discriminate.
  assert (H5 : decimal_value (lit "3") <= MAX_SAFE_INTEGER) by discriminate.
  split; [exact (conj H1 (conj H3 (conj H4 H5)))|].
  destruct (history_digit_prefix env_hi q world25 (lit "3") 97%N (lit "bc")
              H1 H2 H3 H4 H5) as (_ & Hp & Hl).
  destruct (Hp eq_refl) as [Hpage Hnot400].
  destruct (Hl eq_refl) as [Hlimit _].
  exact (conj Hpage (conj Hlimit Hnot400)).
Defined.

(** C10 as stated fails when the digits denote zero. ["0abc"] starts with
    the digit [0] followed by a letter, yet the page is the default 1; and
    ["0x1f"] starts with the digit [0] followed by [x], yet the value is the
    hexadecimal 31, not the prefix value 0. *)
Lemma history_digit_prefix_counterexample :
  let qa := query (Some "0abc"%string) None in
  let qx := query None (Some "0x1f"%string) in
  (lit "0abc" = lit "0" ++ 97%N :: lit "bc" /\ is_decimal_digit 97 = false) /\
  (lit "0x1f" = lit "0" ++ 120%N :: lit "1f" /\ is_decimal_digit 120 = false) /\
  decimal_value (lit "0") = 0 /\
  page_of qa = 1 /\ page_of qa <> decimal_value (lit "0") /\
  pg_page_of (res_body (history_200 env_hi qa store25)) = Some 1 /\
  fst (run (getHistory env_hi qa) world25) = Some (history_200 env_hi qa store25) /\
  limit_of qx = 31 /\ limit_of qx <> decimal_value (lit "0") /\
  pg_limit_of (res_body (history_200 env_hi qx store25)) = Some 31 /\
  fst (run (getHistory env_hi qx) world25) = Some (history_200 env_hi qx store25).
Proof.
  cbn zeta. repeat split; try reflexivity; try discriminate;
    vm_compute; reflexivity.
Qed.

(** ** Trimming *)

Lemma trim_start_nil s : trim_start s = [] <-> whitespace_only s.
Proof.
  unfold whitespace_only. induction s as [|c s IH]; cbn [trim_start].
  - split; [constructor | reflexivity].
  - destruct (is_trimmable c) eqn:Hc.
    + rewrite IH. split; [by constructor | by inversion 1].
    + split; [discriminate | inversion 1; congruence].
Qed.

Lemma trim_start_head s c r :
  trim_start s = c :: r -> is_trimmable c = false.
Proof.
  induction s as [|d s IH]; cbn [trim_start]; [discriminate|].
  destruct (is_trimmable d) eqn:Hd; [exact IH|]. by intros [= <- _].
Qed.

(** [s.trim()] is empty exactly when [s] is blank. *)
Lemma trim_nil s : trim s = [] <-> whitespace_only s.
Proof.
  unfold trim, trim_end. split.
  - intros H. apply trim_start_nil.
    destruct (trim_start s) as [|c r] eqn:Hs; [reflexivity|].
    exfalso.
    apply (f_equal (@rev N)) in H. rewrite rev_involutive in H. cbn [rev] in H.
    apply trim_start_nil in H. unfold whitespace_only in H.
    rewrite Forall_forall in H.
    pose proof (trim_start_head _ _ _ Hs) as Hc.
    rewrite (H c) in Hc; [discriminate|].
    set_solver.
  - intros H. apply trim_start_nil in H. by rewrite H.
Qed.

Lemma whitespace_only_dec s : Decision (whitespace_only s).
Proof. unfold whitespace_only. apply _. Qed.

(** ** The generate endpoint: validation *)

Lemma prompt_check v :
  negb (truthy v) || negb (is_string v)
    || (length (trim (string_of v)) =? 0)%nat = true <-> bad_prompt v.
Proof.
  destruct v as [[| b | n | s | l | fs]|]; cbn [is_string string_of bad_prompt negb orb];
    rewrite ?orb_true_r; try done.
  cbn [truthy]. rewrite orb_false_r, negb_involutive, <- trim_nil.
  rewrite orb_true_iff, bool_decide_eq_true, Nat.eqb_eq, length_zero_iff_nil.
  split; [|by right]. intros [->|H]; [reflexivity|exact H].
Qed.

Lemma language_check v :
  (negb (truthy v) || negb (is_string v)) = false ->
  negb (array_includes validLanguages (string_of v)) = true <-> bad_language v.
Proof.
  destruct v as [[| b | n | s | l | fs]|];
    cbn [is_string truthy string_of bad_language negb orb];
    rewrite ?orb_true_r; try discriminate.
  intros _. unfold array_includes.
  rewrite negb_true_iff, bool_decide_eq_false. reflexivity.
Qed.

Lemma bad_language_not_string v :
  (negb (truthy v) || negb (is_string v)) = true -> bad_language v.
Proof.
  destruct v as [[| b | n | s | l | fs]|]; cbn; try done.
  rewrite orb_false_r. rewrite negb_involutive, bool_decide_eq_true.
  intros ->. unfold validLanguages. rewrite !elem_of_cons, elem_of_nil.
  intros [H|[H|[H|[H|[]]]]]; discriminate H.
Qed.

Section Generate.

Context (env : Env) (req : Request) (w : World).

(** A request that fails one of the four validation checks is answered
    with 400 and nothing else happens. *)
Lemma generateCode_invalid :
  bad_prompt (prompt_of req) \/ bad_language (language_of req) \/
  truthy (userId_of req) && negb (is_string (userId_of req)) = true ->
  exists msg, run (generateCode env req) w = (Some (generate_400 msg), w).
Proof.
  intros Hbad. unfold generateCode.
  fold (prompt_of req) (language_of req) (userId_of req).
  destruct (negb (truthy (prompt_of req)) || negb (is_string (prompt_of req))
            || (length (trim (string_of (prompt_of req))) =? 0)%nat) eqn:C1;
    [eexists; reflexivity|].
  destruct (negb (truthy (language_of req)) || negb (is_string (language_of req)))
    eqn:C2; [eexists; reflexivity|].
  destruct (negb (array_includes validLanguages (string_of (language_of req))))
    eqn:C3; [eexists; reflexivity|].
  destruct (truthy (userId_of req) && negb (is_string (userId_of req))) eqn:C4;
    [eexists; reflexivity|].
  exfalso. destruct Hbad as [H|[H|H]].
  - apply prompt_check in H. congruence.
  - apply (language_check _ C2) in H. congruence.
  - discriminate H.
Qed.

(** A request that passes them continues with the user check. *)
Lemma generateCode_validated :
  ~ bad_prompt (prompt_of req) -> ~ bad_language (language_of req) ->
  truthy (userId_of req) && negb (is_string (userId_of req)) = false ->
  run (generateCode env req) w =
  run (try_catch
         (generate_checked env (prompt_of req) (language_of req) (userId_of req))
         generate_catch) w.
Proof.
  intros Hp Hl Hu. unfold generateCode.
  fold (prompt_of req) (language_of req) (userId_of req).
  destruct (negb (truthy (prompt_of req)) || negb (is_string (prompt_of req))
            || (length (trim (string_of (prompt_of req))) =? 0)%nat) eqn:C1.
  { apply prompt_check in C1. contradiction. }
  destruct (negb (truthy (language_of req)) || negb (is_string (language_of req)))
    eqn:C2.
  { apply bad_language_not_string in C2. contradiction. }
  destruct (negb (array_includes validLanguages (string_of (language_of req))))
    eqn:C3.
  { apply (language_check _ C2) in C3. contradiction. }
  rewrite Hu. reflexivity.
Qed.

End Generate.

(** ** The generate endpoint: the catch block *)

Section Catch.

Context (e : JsError) (w : World).

Lemma generate_catch_key :
  mentions_key (message e) = true ->
  run (generate_catch e) w = (Some generate_401, w).
Proof. unfold generate_catch, mentions_key. intros ->. reflexivity. Qed.

Lemma generate_catch_quota :
  mentions_key (message e) = false -> mentions_quota (message e) = true ->
  run (generate_catch e) w = (Some generate_429, w).
Proof.
  unfold generate_catch, mentions_key, mentions_quota. intros -> ->.
  reflexivity.
Qed.

Lemma generate_catch_status s :
  mentions_key (message e) = false -> mentions_quota (message e) = false ->
  status e = Some s -> s <> 0 ->
  run (generate_catch e) w =
    (Some {| res_status := s;
             res_body :=
               BErrorMessage (lit "Gemini API error")
                 (if bool_decide (message e = []) then lit "Failed to generate code"
                  else message e) |}, w).
Proof.
  unfold generate_catch, mentions_key, mentions_quota. intros -> -> -> Hs.
  replace (s =? 0) with false by (symmetry; by apply Z.eqb_neq).
  reflexivity.
Qed.

Lemma generate_catch_plain :
  mentions_key (message e) = false -> mentions_quota (message e) = false ->
  status e = None ->
  run (generate_catch e) w = (Some (generate_500 e), w).
Proof.
  unfold generate_catch, mentions_key, mentions_quota. intros -> -> ->.
  reflexivity.
Qed.


End Catch.

(** ** The generate endpoint: user check and upstream call *)

Section Upstream.

Context (env : Env) (p l u : value) (w : World).

Let call : Effect := HttpFetch (fullPrompt (string_of l) (string_of p)).

Lemma checked_passes w1 :
  passes_user_check env u w w1 ->
  run (try_catch (generate_checked env p l u) generate_catch) w =
  run (try_catch (generate_upstream env p l u) generate_catch) w1.
Proof.
  intros [Hu | uid usr -> Hne Herr Hfound]; unfold generate_checked.
  - rewrite Hu. reflexivity.
  - cbn [truthy string_of]. rewrite bool_decide_false by done.
    unfold user_findUnique. rewrite Herr.
    unfold run, try_catch. hsimpl. rewrite Hfound. reflexivity.
Qed.

Lemma checked_user_missing uid :
  u = Some (JStr uid) -> uid <> [] ->
  user_findUnique_error env = None ->
  users (store w) !! uid = None ->
  run (try_catch (generate_checked env p l u) generate_catch) w =
    (Some generate_404, log (DbUserFindUnique uid) w).
Proof.
  intros -> Hne Herr Hmissing. unfold generate_checked.
  cbn [truthy string_of]. rewrite bool_decide_false by done.
  unfold user_findUnique. rewrite Herr.
  unfold run, try_catch. hsimpl. rewrite Hmissing. reflexivity.
Qed.

Lemma upstream_rejected e :
  fetch_result env = FetchRejected e ->
  run (try_catch (generate_upstream env p l u) generate_catch) w =
  run (generate_catch e) (log call w).
Proof.
  intros Hf. unfold generate_upstream, fetch. rewrite Hf. reflexivity.
Qed.

Lemma upstream_not_ok r :
  fetch_result env = FetchResolved r -> http_ok r = false ->
  run (try_catch (generate_upstream env p l u) generate_catch) w =
  run (generate_catch (upstream_failure r)) (log call w).
Proof.
  intros Hf Hok. unfold generate_upstream, fetch, upstream_failure.
  rewrite Hf. unfold run, try_catch. hsimpl. rewrite Hok. hsimpl.
  destruct (upstream_error_message _ _); reflexivity.
Qed.

Lemma upstream_unparsable r e :
  fetch_result env = FetchResolved r -> http_ok r = true ->
  http_json r = Unparsable e ->
  run (try_catch (generate_upstream env p l u) generate_catch) w =
  run (generate_catch e) (log call w).
Proof.
  intros Hf Hok Hj. unfold generate_upstream, fetch, response_json.
  rewrite Hf. unfold run, try_catch. hsimpl. rewrite Hok, Hj. reflexivity.
Qed.

Lemma upstream_text_error r data e :
  fetch_result env = FetchResolved r -> http_ok r = true ->
  http_json r = Parsed data -> generated_text data = inl e ->
  run (try_catch (generate_upstream env p l u) generate_catch) w =
  run (generate_catch e) (log call w).
Proof.
  intros Hf Hok Hj Ht. unfold generate_upstream, fetch, response_json.
  rewrite Hf. unfold run, try_catch. hsimpl. rewrite Hok, Hj. hsimpl.
  rewrite Ht. reflexivity.
Qed.

Lemma upstream_empty r data :
  fetch_result env = FetchResolved r -> http_ok r = true ->
  http_json r = Parsed data -> generated_text data = inr [] ->
  run (try_catch (generate_upstream env p l u) generate_catch) w =
    (Some generate_empty_500, log call w).
Proof.
  intros Hf Hok Hj Ht. unfold generate_upstream, fetch, response_json.
  rewrite Hf. unfold run, try_catch. hsimpl. rewrite Hok, Hj. hsimpl.
  rewrite Ht. reflexivity.
Qed.

Lemma upstream_text r data code :
  fetch_result env = FetchResolved r -> http_ok r = true ->
  http_json r = Parsed data -> generated_text data = inr code -> code <> [] ->
  let d := {| data_prompt := trim (string_of p);
              data_language := string_of l;
              data_code := code;
              data_userId := if truthy u then Some (string_of u) else None |} in
  let g := created env (string_of p) (string_of l) code
             (if truthy u then Some (string_of u) else None) in
  run (try_catch (generate_upstream env p l u) generate_catch) w =
    match generation_create_error env with
    | Some e =>
        run (generate_catch e) (log (DbGenerationCreate d) (log call w))
    | None =>
        (Some {| res_status := 200; res_body := BGeneration g |},
         {| store := {| users := users (store w);
                        generations := generations (store w) ++ [g] |};
            trace := trace w ++ [call; DbGenerationCreate d] |})
    end.
Proof.
  intros Hf Hok Hj Ht Hne d g.
  unfold generate_upstream, fetch, response_json, generation_create.
  rewrite Hf. unfold run, try_catch. hsimpl. rewrite Hok, Hj. hsimpl.
  rewrite Ht. hsimpl. rewrite bool_decide_false by done. hsimpl.
  destruct (generation_create_error env) as [e|]; hsimpl; [reflexivity|].
  rewrite <- (assoc_L (++)). reflexivity.
Qed.

End Upstream.

(** ** The generate endpoint: whole runs *)

#[global] Instance bad_prompt_dec v : Decision (bad_prompt v).
Proof.
  destruct v as [[| b | n | s | l | fs]|]; cbn [bad_prompt]; apply _.
Qed.

#[global] Instance bad_language_dec v : Decision (bad_language v).
Proof.
  destruct v as [[| b | n | s | l | fs]|]; cbn [bad_language]; apply _.
Qed.

Lemma passes_user_check_world env u w w1 :
  passes_user_check env u w w1 ->
  store w1 = store w /\
  exists lookups, trace w1 = trace w ++ lookups /\
                  Forall (fun e => is_user_lookup e = true) lookups.
Proof.
  intros [Hu | uid usr _ _ _ _].
  - split; [reflexivity|]. exists []. by rewrite app_nil_r.
  - split; [reflexivity|]. exists [DbUserFindUnique uid].
    split; [reflexivity|]. by repeat constructor.
Qed.

Lemma passes_user_check_reference env u w w1 :
  passes_user_check env u w w1 -> is_string u = true \/ truthy u = false.
Proof. intros [Hu | uid usr -> _ _ _]; [by right | by left]. Qed.

Lemma user_reference_spec u :
  is_string u = true \/ truthy u = false ->
  (if truthy u then Some (string_of u) else None) = user_reference u.
Proof.
  destruct u as [[| b | n | s | l | fs]|];
    cbn [is_string truthy string_of user_reference]; intros [H|H];
    try discriminate H; try reflexivity; try (by rewrite H).
  all: by destruct (bool_decide (s = [])).
Qed.

Lemma truthy_string_check u :
  is_string u = true \/ truthy u = false ->
  truthy u && negb (is_string u) = false.
Proof. intros [->| ->]; [apply andb_false_r | reflexivity]. Qed.

(** Reaching the upstream call, a run of [generateCode] is a run of the
    upstream phase in the world the user check left. *)
Lemma generateCode_reaches env req w w1 :
  reaches_upstream env req w w1 ->
  run (generateCode env req) w =
  run (try_catch
         (generate_upstream env (prompt_of req) (language_of req) (userId_of req))
         generate_catch) w1.
Proof.
  intros (Hp & Hl & Hu).
  rewrite generateCode_validated; [by apply checked_passes | done | done |].
  by eapply truthy_string_check, passes_user_check_reference.
Qed.

Lemma generated_text_of_candidate data text :
  candidate_text data = Some (JStr text) ->
  generated_text data = inr (trim text).
Proof.
  destruct data; cbn [generated_text]; try by intros ->.
  discriminate.
Qed.




Lemma good_prompt_string v :
  ~ bad_prompt v -> exists p, v = Some (JStr p) /\ ~ whitespace_only p.
Proof.
  destruct v as [[| b | n | s | l | fs]|]; cbn [bad_prompt]; try tauto.
  intros H. by exists s.
Qed.

Lemma good_language_string v :
  ~ bad_language v -> exists l, v = Some (JStr l) /\ l ∈ validLanguages.
Proof.
  destruct v as [[| b | n | s | l | fs]|]; cbn [bad_language]; try tauto.
  intros H. exists s. split; [reflexivity|].
  by destruct (decide (s ∈ validLanguages)).
Qed.

(** The successful run: one upstream call, then one store write. *)
Lemma generateCode_success env req w w1 r data text :
  reaches_upstream env req w w1 ->
  fetch_result env = FetchResolved r -> http_ok r = true ->
  http_json r = Parsed data ->
  candidate_text data = Some (JStr text) -> ~ whitespace_only text ->
  generation_create_error env = None ->
  let g := created env (string_of (prompt_of req)) (string_of (language_of req))
             (trim text) (user_reference (userId_of req)) in
  exists d,
    run (generateCode env req) w =
      (Some {| res_status := 200; res_body := BGeneration g |},
       {| store := {| users := users (store w1);
                      generations := generations (store w1) ++ [g] |};
          trace := trace w1 ++ [upstream_call req; DbGenerationCreate d] |}).
Proof.
  intros Hreach Hf Hok Hj Htext Hblank Hcreate g.
  rewrite (generateCode_reaches _ _ _ _ Hreach).
  pose proof (generated_text_of_candidate _ _ Htext) as Ht.
  assert (Hne : trim text <> []) by (by rewrite trim_nil).
  rewrite (upstream_text _ _ _ _ _ r data (trim text) Hf Hok Hj Ht Hne).
  cbn zeta. rewrite Hcreate.
  destruct Hreach as (_ & _ & Hu).
  rewrite (user_reference_spec _ (passes_user_check_reference _ _ _ _ Hu)).
  eexists. reflexivity.
Qed.

Lemma good_prompt_intro v p :
  v = Some (JStr p) -> trim p <> [] -> ~ bad_prompt v.
Proof. intros -> Hp. cbn [bad_prompt]. by rewrite <- trim_nil. Qed.

Lemma good_language_intro v l :
  v = Some (JStr l) -> array_includes validLanguages l = true -> ~ bad_language v.
Proof.
  intros -> Hl. cbn [bad_language]. unfold array_includes in Hl.
  apply bool_decide_eq_true in Hl. tauto.
Qed.

Lemma not_blank_intro s : trim s <> [] -> ~ whitespace_only s.
Proof. by rewrite trim_nil. Qed.

(** C5. A request that passes validation and the user check, and whose
    upstream call answers with a text that is not blank, stores exactly one
    generation and answers 200 with it: its code is the trimmed text, its
    prompt the trimmed prompt, its language the language sent, its user the
    [userId] sent (none when [userId] is absent), with the identifier and
    the timestamp the database assigned. *)
Theorem generate_persists_result (env : Env) (req : Request) (w w1 : World)
    (r : HttpResponse) (data : json) (text : jsstring) :
  reaches_upstream env req w w1 ->
  fetch_result env = FetchResolved r -> http_ok r = true ->
  http_json r = Parsed data ->
  candidate_text data = Some (JStr text) -> ~ whitespace_only text ->
  generation_create_error env = None ->
  exists p l g w',
    prompt_of req = Some (JStr p) /\ language_of req = Some (JStr l) /\
    run (generateCode env req) w =
      (Some {| res_status := 200; res_body := BGeneration g |}, w') /\
    gen_code g = trim text /\ gen_prompt g = trim p /\ gen_language g = l /\
    gen_userId g = user_reference (userId_of req) /\
    gen_id g = generated_id env /\ gen_createdAt g = current_timestamp env /\
    users (store w') = users (store w) /\
    generations (store w') = generations (store w) ++ [g] /\
    length (filter (fun e => is_write e = true) (trace w')) =
      S (length (filter (fun e => is_write e = true) (trace w))) /\
    length (filter (fun e => is_fetch e = true) (trace w')) =
      S (length (filter (fun e => is_fetch e = true) (trace w))).
Proof.
  intros Hreach Hf Hok Hj Htext Hblank Hcreate.
  destruct (generateCode_success env req w w1 r data text
              Hreach Hf Hok Hj Htext Hblank Hcreate) as (d & Hrun).
  destruct Hreach as (Hp & Hl & Hu).
  destruct (good_prompt_string _ Hp) as (p & Hpv & _).
  destruct (good_language_string _ Hl) as (l & Hlv & _).
  destruct (passes_user_check_world _ _ _ _ Hu) as (Hstore & lookups & Htrace & Hlk).
  eexists p, l, _, _. split; [exact Hpv|]. split; [exact Hlv|].
  split; [exact Hrun|]. cbn [store trace users generations gen_code gen_prompt
    gen_language gen_userId gen_id gen_createdAt created].
  rewrite Hpv, Hlv, Hstore, Htrace. cbn [string_of].
  repeat (split; [reflexivity|]).
  assert (Hnw : filter (fun e => is_write e = true) lookups = []
              /\ filter (fun e => is_fetch e = true) lookups = []).
  { clear -Hlk. induction Hlk as [|e es He _ [IH1 IH2]]; [done|].
    destruct e; try discriminate He. split.
    - rewrite filter_cons_False by (cbn; discriminate). exact IH1.
    - rewrite filter_cons_False by (cbn; discriminate). exact IH2. }
  destruct Hnw as [Hnw Hnf].
  assert (Hw2 : filter (fun e => is_write e = true)
                   [upstream_call req; DbGenerationCreate d]
                 = [DbGenerationCreate d]) by reflexivity.
  assert (Hf2 : filter (fun e => is_fetch e = true)
                   [upstream_call req; DbGenerationCreate d]
                 = [upstream_call req]) by reflexivity.
  rewrite !filter_app, Hnw, Hnf, Hw2, Hf2, !length_app. cbn [length]. lia.
Qed.

Lemma generate_persists_result_witness :
  let req := request "  reverse a string " "Python" (Some (JStr (lit "user-1"))) in
  let w1 := log (DbUserFindUnique (lit "user-1")) alice_world in
  reaches_upstream env_hi req alice_world w1 /\
  exists g w',
    run (generateCode env_hi req) alice_world =
      (Some {| res_status := 200; res_body := BGeneration g |}, w') /\
    gen_code g = lit "print('hi')" /\
    gen_prompt g = lit "reverse a string" /\
    gen_language g = lit "Python" /\
    gen_userId g = Some (lit "user-1") /\
    generations (store w') = [g].
Proof.
  intros req w1.
  assert (Hreach : reaches_upstream env_hi req alice_world w1).
  { split; [|split].
    - apply (good_prompt_intro _ (lit "  reverse a string ") eq_refl).
      vm_compute. discriminate.
    - apply (good_language_intro _ (lit "Python") eq_refl). reflexivity.
    - apply (user_found _ _ _ (lit "user-1") alice eq_refl);
        [discriminate | reflexivity | reflexivity]. }
  split; [exact Hreach|].
  assert (Htext : ~ whitespace_only (lit "print('hi')")).
  { apply not_blank_intro. vm_compute. discriminate. }
  destruct (generate_persists_result env_hi req alice_world w1
              {| http_status := 200; http_statusText := lit "OK";
                 http_json := Parsed (gemini_reply (lit "print('hi')")) |}
              (gemini_reply (lit "print('hi')")) (lit "print('hi')")
              Hreach eq_refl eq_refl eq_refl eq_refl Htext eq_refl)
    as (p & l & g & w' & Hp & Hl & Hrun & Hcode & Hprompt & Hlang & Huser
        & _ & _ & _ & Hgens & _).
  exists g, w'. split; [exact Hrun|].
  injection Hp as <-. injection Hl as <-.
  split; [exact Hcode|]. split; [exact Hprompt|]. split; [exact Hlang|].
  split; [exact Huser|exact Hgens].
Defined.




(** A JSON body [null] is not even read as far as the text: the property
    access throws and the [catch] block answers, still with status 500 and
    still without a store write. *)
Example generate_null_body :
  let env := env_with (http_reply 200 (lit "OK") JNull) in
  let req := request "reverse a string" "Python" None in
  run (generateCode env req) empty_world =
    (Some (generate_500 (TypeError_null "candidates")),
     log (upstream_call req) empty_world).
Proof. vm_compute. reflexivity. Qed.



(** C4 (amended). A request with a missing, non-string, empty or blank
    prompt, with a language outside the four, or with a truthy [userId] that
    is not a string is answered with 400 and no effect at all; a request
    that is valid so far and names, by a non-empty string, a user the store
    does not have is answered with 404 after the one lookup. In both cases
    the store is unchanged and neither the upstream call nor a store write
    is attempted. *)
Theorem generate_validation_fails_fast (env : Env) (req : Request) (w : World) :
  bad_prompt (prompt_of req) \/ bad_language (language_of req) \/
  (truthy (userId_of req) = true /\ is_string (userId_of req) = false) \/
  (exists uid, userId_of req = Some (JStr uid) /\ uid <> [] /\
               user_findUnique_error env = None /\
               users (store w) !! uid = None) ->
  exists r lookups,
    run (generateCode env req) w =
      (Some r, {| store := store w; trace := trace w ++ lookups |}) /\
    Forall (fun e => is_user_lookup e = true) lookups /\
    (bad_prompt (prompt_of req) \/ bad_language (language_of req) \/
     (truthy (userId_of req) = true /\ is_string (userId_of req) = false) ->
     lookups = [] /\ exists msg, r = generate_400 msg) /\
    (~ bad_prompt (prompt_of req) -> ~ bad_language (language_of req) ->
     forall uid, userId_of req = Some (JStr uid) ->
       lookups = [DbUserFindUnique uid] /\ r = generate_404).
Proof.
  intros Hfail.
  assert (Hbad : bad_prompt (prompt_of req) \/ bad_language (language_of req) \/
                 truthy (userId_of req) && negb (is_string (userId_of req)) = true ->
    exists r lookups,
      run (generateCode env req) w =
        (Some r, {| store := store w; trace := trace w ++ lookups |}) /\
      Forall (fun e => is_user_lookup e = true) lookups /\
      (bad_prompt (prompt_of req) \/ bad_language (language_of req) \/
       (truthy (userId_of req) = true /\ is_string (userId_of req) = false) ->
       lookups = [] /\ exists msg, r = generate_400 msg) /\
      (~ bad_prompt (prompt_of req) -> ~ bad_language (language_of req) ->
       forall uid, userId_of req = Some (JStr uid) ->
         lookups = [DbUserFindUnique uid] /\ r = generate_404)).
  { intros Hb. destruct (generateCode_invalid env req w Hb) as (msg & Hrun).
    exists (generate_400 msg), []. split.
    { rewrite Hrun. destruct w. by rewrite app_nil_r. }
    split; [constructor|]. split; [by eauto|].
    intros Hp Hl uid Hu. exfalso.
    destruct Hb as [?|[?|Hb]]; [contradiction|contradiction|].
    rewrite Hu in Hb. cbn [is_string negb] in Hb.
    rewrite andb_false_r in Hb. discriminate Hb. }
  destruct (decide (bad_prompt (prompt_of req))) as [Hp|Hp]; [by auto|].
  destruct (decide (bad_language (language_of req))) as [Hl|Hl]; [by auto|].
  destruct Hfail as [?|[?|[[Ht Hs]|(uid & Hu & Hne & Herr & Hmiss)]]];
    [contradiction | contradiction
    | apply Hbad; right; right; rewrite Ht, Hs; reflexivity |].
  exists generate_404, [DbUserFindUnique uid]. split.
  { rewrite generateCode_validated;
      [|done|done|rewrite Hu; apply andb_false_r].
    by apply checked_user_missing. }
  split; [by repeat constructor|]. split.
  - intros [?|[?|[_ Hs]]]; [contradiction|contradiction|].
    rewrite Hu in Hs. discriminate Hs.
  - intros _ _ uid' Hu'. rewrite Hu in Hu'. by injection Hu' as <-.
Qed.

Lemma generate_validation_fails_fast_witness :
  let req := request "reverse a string" "Python" (Some (JStr (lit "user-2"))) in
  (exists uid, userId_of req = Some (JStr uid) /\ uid <> [] /\
               user_findUnique_error env_hi = None /\
               users (store alice_world) !! uid = None) /\
  run (generateCode env_hi req) alice_world =
    (Some generate_404,
     {| store := store alice_world;
        trace := [DbUserFindUnique (lit "user-2")] |}).
Proof.
  intros req.
  assert (Hunknown : exists uid, userId_of req = Some (JStr uid) /\ uid <> [] /\
               user_findUnique_error env_hi = None /\
               users (store alice_world) !! uid = None).
  { exists (lit "user-2"). split; [reflexivity|]. split; [discriminate|].
    split; reflexivity. }
  split; [exact Hunknown|].
  destruct (generate_validation_fails_fast env_hi req alice_world
              (or_intror (or_intror (or_intror Hunknown))))
    as (r & lookups & Hrun & _ & _ & H404).
  assert (Hp : ~ bad_prompt (prompt_of req)).
  { apply (good_prompt_intro _ (lit "reverse a string") eq_refl).
    vm_compute. discriminate. }
  assert (Hl : ~ bad_language (language_of req)).
  { apply (good_language_intro _ (lit "Python") eq_refl). reflexivity. }
  destruct (H404 Hp Hl (lit "user-2") eq_refl) as [-> ->].
  exact Hrun.
Defined.

(** C4 as stated fails for a [userId] that is not a string but falsy:
    [false] (and likewise [0] and [null]) passes the check
    [userId && typeof userId !== 'string'], the upstream call is made and a
    generation is stored with no user. *)
Lemma generate_validation_counterexample :
  let req := request "reverse a string" "Python" (Some (JBool false)) in
  userId_of req = Some (JBool false) /\
  is_string (userId_of req) = false /\
  exists g d,
    run (generateCode env_hi req) empty_world =
      (Some {| res_status := 200; res_body := BGeneration g |},
       {| store := {| users := ∅; generations := [g] |};
          trace := [upstream_call req; DbGenerationCreate d] |}) /\
    gen_userId g = None.
Proof.
  cbn zeta. split; [reflexivity|]. split; [reflexivity|].
  eexists _, _. split; [vm_compute; reflexivity | reflexivity].
Qed.

Lemma upstream_failure_status r : status (upstream_failure r) = None.
Proof.
  unfold upstream_failure, upstream_error_message.
  destruct (http_json r) as [[]|]; reflexivity.
Qed.

(** C2. The [Error] thrown for an upstream answer that is not ok carries
    the upstream message but no status, so the branch [if (error.status)] of
    the [catch] block is never taken for it: unless the message holds one of
    the key or quota markers, the answer is 500 whatever the upstream status
    was. The upstream status is not mirrored. *)
Theorem upstream_status_not_mirrored (env : Env) (req : Request) (w w1 : World)
    (r : HttpResponse) :
  reaches_upstream env req w w1 ->
  fetch_result env = FetchResolved r -> http_ok r = false ->
  mentions_key (message (upstream_failure r)) = false ->
  mentions_quota (message (upstream_failure r)) = false ->
  status (upstream_failure r) = None /\
  run (generateCode env req) w =
    (Some (generate_500 (upstream_failure r)), log (upstream_call req) w1) /\
  res_status (generate_500 (upstream_failure r)) = 500.
Proof.
  intros Hreach Hf Hok Hk Hq.
  split; [apply upstream_failure_status|]. split; [|reflexivity].
  rewrite (generateCode_reaches _ _ _ _ Hreach).
  rewrite (upstream_not_ok _ _ _ _ _ r Hf Hok).
  apply generate_catch_plain; [exact Hk | exact Hq | apply upstream_failure_status].
Qed.

Lemma upstream_status_not_mirrored_witness :
  let req := request "reverse a string" "Python" None in
  let r := {| http_status := 503; http_statusText := lit "Service Unavailable";
              http_json := Parsed (gemini_error_body
                (lit "The model is overloaded. Please try again later.")) |} in
  (reaches_upstream env_503 req empty_world empty_world /\
   http_status r = 503 /\ http_ok r = false) /\
  run (generateCode env_503 req) empty_world =
    (Some {| res_status := 500;
             res_body :=
               BErrorMessage (lit "Failed to generate code")
                 (lit "The model is overloaded. Please try again later.") |},
     log (upstream_call req) empty_world).
Proof.
  intros req r.
  assert (Hreach : reaches_upstream env_503 req empty_world empty_world).
  { split; [|split].
    - apply (good_prompt_intro _ (lit "reverse a string") eq_refl).
      vm_compute. discriminate.
    - apply (good_language_intro _ (lit "Python") eq_refl). reflexivity.
    - apply no_user_named. reflexivity. }
  split; [exact (conj Hreach (conj eq_refl eq_refl))|].
  destruct (upstream_status_not_mirrored env_503 req empty_world empty_world r
              Hreach eq_refl eq_refl eq_refl eq_refl) as (_ & Hrun & _).
  exact Hrun.
Defined.

(** C3. An upstream answer with status 429 is classified by the text of its
    message alone: it is answered with the quota 429 only when the message
    holds ["quota"] or ["429"] and holds no key marker; otherwise with 401 or
    with the plain 500. In no case is anything written to the store. *)
Theorem upstream_429_classified_by_message (env : Env) (req : Request)
    (w w1 : World) (r : HttpResponse) :
  reaches_upstream env req w w1 ->
  fetch_result env = FetchResolved r -> http_status r = 429 ->
  let e := upstream_failure r in
  run (generateCode env req) w =
    (Some (if mentions_key (message e) then generate_401
           else if mentions_quota (message e) then generate_429
           else generate_500 e),
     log (upstream_call req) w1) /\
  store (log (upstream_call req) w1) = store w.
Proof.
  intros Hreach Hf Hs e.
  assert (Hok : http_ok r = false) by (unfold http_ok; by rewrite Hs).
  split.
  - rewrite (generateCode_reaches _ _ _ _ Hreach).
    rewrite (upstream_not_ok _ _ _ _ _ r Hf Hok). fold e.
    destruct (mentions_key (message e)) eqn:Hk;
      [by apply generate_catch_key|].
    destruct (mentions_quota (message e)) eqn:Hq;
      [by apply generate_catch_quota|].
    apply generate_catch_plain; [done | done | apply upstream_failure_status].
  - destruct Hreach as (_ & _ & Hu).
    destruct (passes_user_check_world _ _ _ _ Hu) as [Hstore _].
    exact Hstore.
Qed.

Lemma upstream_429_classified_by_message_witness :
  let req := request "reverse a string" "Python" None in
  let r := {| http_status := 429; http_statusText := lit "Too Many Requests";
              http_json := Parsed (gemini_error_body (lit "Too many requests")) |} in
  (reaches_upstream env_429 req empty_world empty_world /\ http_status r = 429) /\
  run (generateCode env_429 req) empty_world =
    (Some {| res_status := 500;
             res_body :=
               BErrorMessage (lit "Failed to generate code")
                 (lit "Too many requests") |},
     log (upstream_call req) empty_world).
Proof.
  intros req r.
  assert (Hreach : reaches_upstream env_429 req empty_world empty_world).
  { split; [|split].
    - apply (good_prompt_intro _ (lit "reverse a string") eq_refl).
      vm_compute. discriminate.
    - apply (good_language_intro _ (lit "Python") eq_refl). reflexivity.
    - apply no_user_named. reflexivity. }
  split; [exact (conj Hreach eq_refl)|].
  destruct (upstream_429_classified_by_message env_429 req empty_world
              empty_world r Hreach eq_refl eq_refl) as (Hrun & _).
  exact Hrun.
Defined.

(** The sibling paths: a 429 whose body has no error message gets the
    fallback message, which names the status, and a 429 whose message speaks
    of the quota; both are answered with the quota 429. *)
Example upstream_429_fallback_message :
  let env := env_with (http_reply 429 (lit "Too Many Requests") (JObj [])) in
  let req := request "reverse a string" "Python" None in
  message (upstream_failure
             {| http_status := 429; http_statusText := lit "Too Many Requests";
                http_json := Parsed (JObj []) |})
    = lit "API request failed with status 429" /\
  run (generateCode env req) empty_world =
    (Some generate_429, log (upstream_call req) empty_world).
Proof. split; vm_compute; reflexivity. Qed.

Example upstream_429_quota_message :
  let env := env_with (http_reply 429 (lit "Too Many Requests")
               (gemini_error_body (lit "Resource has been exhausted (e.g. check quota)."))) in
  let req := request "reverse a string" "Python" None in
  run (generateCode env req) empty_world =
    (Some generate_429, log (upstream_call req) empty_world).
Proof. vm_compute. reflexivity. Qed.

(** An error that does carry a status, as the [catch] block expects, is
    answered with that status. *)
Example catch_mirrors_status :
  run (generate_catch {| message := lit "Service Unavailable"; status := Some 503 |})
      empty_world =
    (Some {| res_status := 503;
             res_body := BErrorMessage (lit "Gemini API error")
                           (lit "Service Unavailable") |}, empty_world).
Proof. vm_compute. reflexivity. Qed.

(** * Further properties *)

(** ** Every path of generateCode *)

Lemma generate_catch_run e w :
  run (generate_catch e) w = (Some (caught e), w).
Proof.
  unfold caught.
  destruct (mentions_key (message e)) eqn:Hk;
    [by apply generate_catch_key|].
  destruct (mentions_quota (message e)) eqn:Hq;
    [by apply generate_catch_quota|].
  destruct (status e) as [s|] eqn:Hs; [|by apply generate_catch_plain].
  destruct (Z.eqb_spec s 0) as [->|Hne];
    [|by apply generate_catch_status].
  unfold generate_catch. fold (mentions_key (message e)).
  fold (mentions_quota (message e)). rewrite Hk, Hq, Hs. reflexivity.
Qed.

Lemma caught_not_generation e g :
  caught e <> {| res_status := 200; res_body := BGeneration g |}.
Proof.
  unfold caught. repeat case_match; intros [=].
Qed.

Lemma caught_status e :
  status e = None ->
  res_status (caught e) = 401 \/ res_status (caught e) = 429 \/
  res_status (caught e) = 500.
Proof.
  intros Hs. unfold caught. rewrite Hs. repeat case_match; auto.
Qed.

Lemma checked_lookup_fails env p l u w uid e :
  u = Some (JStr uid) -> uid <> [] ->
  user_findUnique_error env = Some e ->
  run (try_catch (generate_checked env p l u) generate_catch) w =
  run (generate_catch e) (log (DbUserFindUnique uid) w).
Proof.
  intros -> Hne Herr. unfold generate_checked.
  cbn [truthy string_of]. rewrite bool_decide_false by done.
  unfold user_findUnique. rewrite Herr. reflexivity.
Qed.

(** The paths of the upstream phase. *)
Lemma generate_upstream_cases env p l u w :
  let call := HttpFetch (fullPrompt (string_of l) (string_of p)) in
  let result := run (try_catch (generate_upstream env p l u) generate_catch) w in
  (exists e, (e ∈ env_errors env \/ status e = None) /\
             result = (Some (caught e), log call w)) \/
  result = (Some generate_empty_500, log call w) \/
  (exists r data code,
     fetch_result env = FetchResolved r /\ http_ok r = true /\
     http_json r = Parsed data /\ generated_text data = inr code /\ code <> [] /\
     let d := {| data_prompt := trim (string_of p);
                 data_language := string_of l;
                 data_code := code;
                 data_userId := if truthy u then Some (string_of u) else None |} in
     let g := created env (string_of p) (string_of l) code
                (if truthy u then Some (string_of u) else None) in
     ((exists e, generation_create_error env = Some e /\
                 result = (Some (caught e),
                           log (DbGenerationCreate d) (log call w))) \/
      (generation_create_error env = None /\
       result =
         (Some {| res_status := 200; res_body := BGeneration g |},
          {| store := {| users := users (store w);
                         generations := generations (store w) ++ [g] |};
             trace := trace w ++ [call; DbGenerationCreate d] |})))).
Proof.
  intros call result. unfold result, call. clear result call.
  destruct (fetch_result env) as [e|r] eqn:Hf.
  { left. exists e. split.
    - left. unfold env_errors. rewrite Hf. set_solver.
    - rewrite (upstream_rejected _ _ _ _ _ e Hf). apply generate_catch_run. }
  destruct (http_ok r) eqn:Hok.
  2:{ left. exists (upstream_failure r). split.
      - right. apply upstream_failure_status.
      - rewrite (upstream_not_ok _ _ _ _ _ r Hf Hok). apply generate_catch_run. }
  destruct (http_json r) as [data|e] eqn:Hj.
  2:{ left. exists e. split.
      - left. unfold env_errors. rewrite Hf, Hj. set_solver.
      - rewrite (upstream_unparsable _ _ _ _ _ r e Hf Hok Hj).
        apply generate_catch_run. }
  destruct (generated_text data) as [e|code] eqn:Ht.
  { left. exists e. split.
    - right. unfold generated_text in Ht.
      repeat case_match; simplify_eq; reflexivity.
    - rewrite (upstream_text_error _ _ _ _ _ r data e Hf Hok Hj Ht).
      apply generate_catch_run. }
  destruct (decide (code = [])) as [->|Hcode].
  { right. left. apply (upstream_empty _ _ _ _ _ r data Hf Hok Hj Ht). }
  right. right. exists r, data, code.
  repeat (split; [done|]). cbn zeta.
  rewrite (upstream_text _ _ _ _ _ r data code Hf Hok Hj Ht Hcode). cbn zeta.
  destruct (generation_create_error env) as [e|].
  - left. exists e. split; [reflexivity|]. apply generate_catch_run.
  - right. split; reflexivity.
Qed.

(** The paths of [generateCode]: refused by validation, refused or failed
    at the user check, or handed to the upstream phase. *)
Lemma generateCode_cases env req w :
  (exists msg, validation_failure req msg /\
               run (generateCode env req) w = (Some (generate_400 msg), w)) \/
  (exists uid, userId_of req = Some (JStr uid) /\ uid <> [] /\
     ~ bad_prompt (prompt_of req) /\ ~ bad_language (language_of req) /\
     ((user_findUnique_error env = None /\ users (store w) !! uid = None /\
       run (generateCode env req) w =
         (Some generate_404, log (DbUserFindUnique uid) w)) \/
      (exists e, user_findUnique_error env = Some e /\
         run (generateCode env req) w =
           (Some (caught e), log (DbUserFindUnique uid) w)))) \/
  (exists w1, reaches_upstream env req w w1 /\
     run (generateCode env req) w =
     run (try_catch
            (generate_upstream env (prompt_of req) (language_of req)
               (userId_of req)) generate_catch) w1).
Proof.
  destruct (decide (bad_prompt (prompt_of req))) as [Hp|Hp].
  { left. eexists. split; [by apply prompt_refused|].
    unfold generateCode. fold (prompt_of req).
    apply prompt_check in Hp. rewrite Hp. reflexivity. }
  assert (C1 : negb (truthy (prompt_of req)) || negb (is_string (prompt_of req))
            || (length (trim (string_of (prompt_of req))) =? 0)%nat = false).
  { destruct (_ || _ || _) eqn:C; [|done]. by apply prompt_check in C. }
  destruct (negb (truthy (language_of req)) || negb (is_string (language_of req)))
    eqn:C2.
  { left. eexists. split.
    - apply language_missing; [done|]. intros l Hl. rewrite Hl in C2.
      cbn in C2. rewrite orb_false_r, negb_involutive in C2.
      by apply bool_decide_eq_true in C2.
    - unfold generateCode. fold (prompt_of req) (language_of req).
      rewrite C1, C2. reflexivity. }
  destruct (negb (array_includes validLanguages (string_of (language_of req))))
    eqn:C3.
  { left. eexists. split.
    - destruct (language_of req) as [[| b | n | l | a | fs]|] eqn:Hl;
        cbn [truthy is_string negb orb] in C2; rewrite ?orb_true_r in C2;
        try discriminate C2.
      apply (language_unknown _ l); [done|done| |].
      + rewrite orb_false_r, negb_false_iff, negb_true_iff in C2.
        by apply bool_decide_eq_false in C2.
      + apply negb_true_iff, bool_decide_eq_false in C3. exact C3.
    - unfold generateCode. fold (prompt_of req) (language_of req).
      rewrite C1, C2, C3. reflexivity. }
  assert (Hl : ~ bad_language (language_of req)).
  { intros Hl. apply (language_check _ C2) in Hl. congruence. }
  destruct (truthy (userId_of req)) eqn:Ht.
  2:{ right. right. exists w. split.
      - split; [done|]. split; [done|]. by apply no_user_named.
      - rewrite generateCode_validated by (done || by rewrite Ht).
        apply checked_passes. by apply no_user_named. }
  destruct (is_string (userId_of req)) eqn:Hs.
  2:{ left. eexists. split; [by apply userId_refused|].
      unfold generateCode.
      fold (prompt_of req) (language_of req) (userId_of req).
      rewrite C1, C2, C3, Ht, Hs. reflexivity. }
  destruct (userId_of req) as [[| b | n | uid | a | fs]|] eqn:Hu;
    try discriminate Hs.
  assert (Hne : uid <> []).
  { intros ->. discriminate Ht. }
  assert (Hval : run (generateCode env req) w =
    run (try_catch (generate_checked env (prompt_of req) (language_of req)
                      (Some (JStr uid))) generate_catch) w).
  { rewrite generateCode_validated by (done || by rewrite Hu, Ht).
    by rewrite Hu. }
  destruct (user_findUnique_error env) as [e|] eqn:Herr.
  { right. left. exists uid. repeat (split; [done|]). right. exists e.
    split; [done|]. rewrite Hval.
    rewrite (checked_lookup_fails _ _ _ _ _ uid e eq_refl Hne Herr).
    apply generate_catch_run. }
  destruct (users (store w) !! uid) as [usr|] eqn:Hfound.
  - right. right. exists (log (DbUserFindUnique uid) w).
    assert (Hpass : passes_user_check env (Some (JStr uid)) w
                      (log (DbUserFindUnique uid) w))
      by (by apply (user_found _ _ _ uid usr)).
    split; [split; [done|split; [done|by rewrite Hu]]|].
    rewrite Hval. by apply checked_passes.
  - right. left. exists uid. repeat (split; [done|]). left.
    repeat (split; [done|]). rewrite Hval.
    by apply checked_user_missing.
Qed.

(** ** Trimming, continued *)

Lemma trim_start_split s :
  exists pre, s = pre ++ trim_start s /\ whitespace_only pre.
Proof.
  induction s as [|c s (pre & Hs & Hpre)]; cbn [trim_start].
  - exists []. split; [reflexivity | constructor].
  - destruct (is_trimmable c) eqn:Hc.
    + exists (c :: pre). split; [by rewrite Hs at 1 | by constructor].
    + exists []. split; [reflexivity | constructor].
Qed.

(** What [trim] returns neither starts nor ends with white space. *)
Lemma trim_no_outer_space s : no_outer_space (trim s).
Proof.
  unfold trim, trim_end.
  destruct (trim_start_split (rev (trim_start s))) as (pre & Hrev & Hpre).
  set (u := trim_start (rev (trim_start s))) in *.
  split.
  - intros c r Hc.
    (* the first character of [rev u] is the first of [trim_start s] *)
    assert (Hs : trim_start s = rev u ++ rev pre).
    { rewrite <- rev_app_distr, <- Hrev. by rewrite rev_involutive. }
    rewrite Hc in Hs. cbn [app] in Hs.
    by eapply trim_start_head.
  - intros c r Hc.
    apply (f_equal (@rev N)) in Hc.
    rewrite rev_involutive, rev_app_distr in Hc. cbn [rev app] in Hc.
    by eapply trim_start_head.
Qed.

Lemma generated_text_clean data code :
  generated_text data = inr code -> no_outer_space code.
Proof.
  unfold generated_text. intros H.
  repeat case_match; simplify_eq;
    try apply trim_no_outer_space; split; intros c r Hc;
    by destruct r.
Qed.

(** ** Every path of generateCode, continued *)

(** Every run of [generateCode] answers, along one of the paths. *)
Lemma generateCode_follows_path env req w :
  exists r w', run (generateCode env req) w = (Some r, w') /\
               generate_path env req w r w'.
Proof.
  destruct (generateCode_cases env req w)
    as [(msg & Hmsg & Hrun) | [(uid & Hu & Hne & Hp & Hl & Hcase)
                              | (w1 & Hreach & Hrun)]].
  - eexists _, _. split; [exact Hrun|]. by constructor.
  - destruct Hcase as [(Herr & Hmiss & Hrun) | (e & Herr & Hrun)];
      eexists _, _; (split; [exact Hrun|]).
    + by apply path_unknown_user.
    + by apply path_lookup_failed.
  - rewrite Hrun.
    destruct (generate_upstream_cases env (prompt_of req) (language_of req)
                (userId_of req) w1)
      as [(e & He & Hres) | [Hres | (r & data & code & Hf & Hok & Hj & Ht
                                      & Hcode & Hres)]];
      cbn zeta in *.
    + eexists _, _. split; [exact Hres|]. by apply path_upstream_failed.
    + eexists _, _. split; [exact Hres|]. by apply path_no_text.
    + assert (Hu : (if truthy (userId_of req)
                    then Some (string_of (userId_of req)) else None)
                   = user_reference (userId_of req)).
      { destruct Hreach as (_ & _ & Hu).
        by eapply user_reference_spec, passes_user_check_reference. }
      rewrite Hu in Hres.
      destruct Hres as [(e & Herr & Hres) | (Herr & Hres)];
        eexists _, _; (split; [exact Hres|]).
      * by apply path_write_failed.
      * apply path_stored; [done|done| |done].
        by eapply generated_text_clean.
Qed.

(** Membership in a list that is written out. *)
Ltac in_list :=
  cbn [from_option app];
  solve [repeat first [apply list_elem_of_here | apply list_elem_of_further]].

Lemma run_parts (h : Handler unit) w r w' :
  run h w = (Some r, w') -> response_of h w = Some r /\ world_after h w = w'.
Proof. unfold response_of, world_after. by intros ->. Qed.

Lemma reaches_upstream_world env req w w1 :
  reaches_upstream env req w w1 ->
  store w1 = store w /\
  (trace w1 = trace w \/
   exists uid, userId_of req = Some (JStr uid) /\
               trace w1 = trace w ++ [DbUserFindUnique uid]).
Proof.
  intros (_ & _ & [Hu | uid usr Hu _ _ _]).
  - split; [reflexivity | by left].
  - split; [reflexivity|]. right. by exists uid.
Qed.

(** X1. Whatever the request and the environment, [generateCode] leaves
    the users as they are, and it leaves the generations as they are unless
    it answers 200, in which case it has appended exactly the generation it
    returns. When every status carried by an error of the environment is
    one the [catch] block can pass on (a status from 100 to 999, or 0,
    which it skips), the handler answers, with a status from 100 to 999. *)
Theorem generate_store_safety (env : Env) (req : Request) (w : World) :
  let r := response_of (generateCode env req) w in
  let w' := world_after (generateCode env req) w in
  users (store w') = users (store w) /\
  ((generations (store w') = generations (store w) /\
    forall g, r <> Some {| res_status := 200; res_body := BGeneration g |}) \/
   exists g, r = Some {| res_status := 200; res_body := BGeneration g |} /\
     generations (store w') = generations (store w) ++ [g]) /\
  (Forall (fun e => forall s, status e = Some s -> s = 0 \/ 100 <= s <= 999)
     (env_errors env) ->
   exists a, r = Some a /\ 100 <= res_status a <= 999).
Proof.
  intros r w'. subst r w'.
  destruct (generateCode_follows_path env req w) as (r & w' & Hrun & Hpath).
  destruct (run_parts _ _ _ _ Hrun) as [-> ->].
  split; [|split].
  - destruct Hpath as [msg _ | uid _ _ _ _ _ _ | uid e _ _ _ _ _
                      | w1 e Hreach _ | w1 Hreach | w1 code e Hreach _ _
                      | w1 code Hreach _ _ _];
      try (destruct (reaches_upstream_world _ _ _ _ Hreach) as [Hstore _]);
      cbn [log store users]; by rewrite ?Hstore.
  - destruct Hpath as [msg _ | uid _ _ _ _ _ _ | uid e _ _ _ _ _
                      | w1 e Hreach _ | w1 Hreach | w1 code e Hreach _ _
                      | w1 code Hreach _ _ _];
      try (destruct (reaches_upstream_world _ _ _ _ Hreach) as [Hstore _]);
      cbn [log store generations]; rewrite ?Hstore;
      try (left; split; [reflexivity|]; intros g [= H]; revert H;
           first [apply caught_not_generation | discriminate]).
    right. eexists. split; reflexivity.
  - intros Henv. exists r. split; [reflexivity|].
    rewrite Forall_forall in Henv.
    assert (Hcaught : forall e, e ∈ env_errors env \/ status e = None ->
                                100 <= res_status (caught e) <= 999).
    { intros e He. unfold caught.
      destruct (mentions_key (message e)); [cbn; lia|].
      destruct (mentions_quota (message e)); [cbn; lia|].
      destruct (status e) as [s|] eqn:Hs; [|cbn; lia].
      destruct (Z.eqb_spec s 0) as [->|Hs0]; [cbn; lia|].
      destruct He as [He|He]; [|congruence].
      destruct (Henv e He s Hs) as [->|Hrange]; [done|]. exact Hrange. }
    destruct Hpath as [msg _ | uid _ _ _ _ _ _ | uid e _ _ _ _ Herr
                      | w1 e _ He | w1 _ | w1 code e _ _ Herr
                      | w1 code _ _ _ _];
      cbn [res_status generate_400 generate_404 generate_empty_500]; try lia.
    + apply Hcaught. left. unfold env_errors. rewrite Herr. in_list.
    + by apply Hcaught.
    + apply Hcaught. left. unfold env_errors. rewrite Herr.
      apply elem_of_app. right. apply elem_of_app. right. in_list.
Qed.

Lemma generate_store_safety_witness :
  let unavailable := {| message := lit "Service Unavailable"; status := Some 503 |} in
  let env := env_with (FetchRejected unavailable) in
  let req := request "reverse a string" "Python" None in
  Forall (fun e => forall s, status e = Some s -> s = 0 \/ 100 <= s <= 999)
    (env_errors env) /\
  (exists a, response_of (generateCode env req) alice_world = Some a /\
             100 <= res_status a <= 999) /\
  option_map res_status (response_of (generateCode env req) alice_world) = Some 503 /\
  store (world_after (generateCode env req) alice_world) = store alice_world.
Proof.
  intros unavailable env req.
  assert (Henv : Forall (fun e => forall s, status e = Some s ->
                                            s = 0 \/ 100 <= s <= 999)
                   (env_errors env)).
  { apply Forall_singleton. intros s [= <-]. right. lia. }
  split; [exact Henv|].
  destruct (generate_store_safety env req alice_world) as (_ & _ & Hanswers).
  split; [exact (Hanswers Henv)|]. split; reflexivity.
Defined.

(** X2. The effects of a run of [generateCode] come in a fixed order and
    each at most once: at most one user lookup, for the [userId] of the
    request; then at most one upstream call, with the instruction built from
    the request; then at most one store write, and only after the upstream
    call. *)
Theorem generate_effect_order (env : Env) (req : Request) (w : World) :
  exists lookups calls writes,
    trace (world_after (generateCode env req) w)
      = trace w ++ lookups ++ calls ++ writes /\
    (lookups = [] \/
     exists uid, userId_of req = Some (JStr uid) /\
                 lookups = [DbUserFindUnique uid]) /\
    (calls = [] /\ writes = [] \/
     calls = [upstream_call req] /\
     (writes = [] \/
      exists code, code <> [] /\
                   writes = [DbGenerationCreate (create_data req code)])).
Proof.
  destruct (generateCode_follows_path env req w) as (r & w' & Hrun & Hpath).
  destruct (run_parts _ _ _ _ Hrun) as [_ ->].
  assert (Hup : forall w1 tail,
    reaches_upstream env req w w1 ->
    tail = [] \/ (exists code, code <> [] /\
                  tail = [DbGenerationCreate (create_data req code)]) ->
    exists lookups calls writes,
      trace w1 ++ upstream_call req :: tail = trace w ++ lookups ++ calls ++ writes /\
      (lookups = [] \/
       exists uid, userId_of req = Some (JStr uid) /\
                   lookups = [DbUserFindUnique uid]) /\
      (calls = [] /\ writes = [] \/
       calls = [upstream_call req] /\
       (writes = [] \/
        exists code, code <> [] /\
                     writes = [DbGenerationCreate (create_data req code)]))).
  { intros w1 tail Hreach Htail.
    destruct (reaches_upstream_world _ _ _ _ Hreach) as [_ [Ht | (uid & Hu & Ht)]].
    - exists [], [upstream_call req], tail. rewrite Ht.
      split; [reflexivity|]. split; [by left|]. by right.
    - exists [DbUserFindUnique uid], [upstream_call req], tail. rewrite Ht.
      split; [by rewrite <- (assoc_L (++))|]. split; [right; by exists uid|].
      by right. }
  destruct Hpath as [msg _ | uid _ _ Hu _ _ _ | uid e _ _ Hu _ _
                    | w1 e Hreach _ | w1 Hreach | w1 code e Hreach Hcode _
                    | w1 code Hreach Hcode _ _]; cbn [log trace].
  - exists [], [], []. rewrite app_nil_r. split; [reflexivity|].
    split; by left.
  - exists [DbUserFindUnique uid], [], []. split; [reflexivity|].
    split; [right; by exists uid | by left].
  - exists [DbUserFindUnique uid], [], []. split; [reflexivity|].
    split; [right; by exists uid | by left].
  - apply (Hup w1 []); [done | by left].
  - apply (Hup w1 []); [done | by left].
  - rewrite <- (assoc_L (++)). apply Hup; [done|]. right. by exists code.
  - apply Hup; [done|]. right. by exists code.
Qed.

(** X3. When none of the errors the environment raises carries a status of
    its own, the status of the answer of [generateCode] is one of 200, 400,
    401, 404, 429 and 500. *)
Theorem generate_status_codes (env : Env) (req : Request) (w : World) :
  Forall (fun e => status e = None) (env_errors env) ->
  exists r, response_of (generateCode env req) w = Some r /\
            res_status r ∈ [200; 400; 401; 404; 429; 500].
Proof.
  intros Henv.
  destruct (generateCode_follows_path env req w) as (r & w' & Hrun & Hpath).
  destruct (run_parts _ _ _ _ Hrun) as [-> _].
  exists r. split; [reflexivity|].
  assert (Hcaught : forall e, e ∈ env_errors env \/ status e = None ->
                              res_status (caught e) ∈ [200; 400; 401; 404; 429; 500]).
  { intros e He.
    assert (Hs : status e = None).
    { destruct He as [He|He]; [|done].
      rewrite Forall_forall in Henv. by apply Henv. }
    destruct (caught_status e Hs) as [-> | [-> | ->]]; in_list. }
  destruct Hpath as [msg _ | uid _ _ _ _ _ _ | uid e _ _ _ _ Herr
                    | w1 e _ He | w1 _ | w1 code e _ _ Herr
                    | w1 code _ _ _ _]; cbn [res_status generate_400 generate_404
                                             generate_empty_500];
    try in_list.
  - apply Hcaught. left. unfold env_errors. rewrite Herr. in_list.
  - by apply Hcaught.
  - apply Hcaught. left. unfold env_errors. rewrite Herr.
    apply elem_of_app. right. apply elem_of_app. right. in_list.
Qed.

Lemma generate_status_codes_witness :
  Forall (fun e => status e = None) (env_errors env_429) /\
  exists r,
    response_of (generateCode env_429 (request "reverse a string" "Python" None))
      empty_world = Some r /\
    res_status r ∈ [200; 400; 401; 404; 429; 500].
Proof.
  assert (H : Forall (fun e => status e = None) (env_errors env_429))
    by constructor.
  split; [exact H|].
  exact (generate_status_codes env_429 _ empty_world H).
Defined.

Lemma validation_failure_bad req msg :
  validation_failure req msg ->
  bad_prompt (prompt_of req) \/ bad_language (language_of req) \/
  (truthy (userId_of req) = true /\ is_string (userId_of req) = false).
Proof.
  intros [Hp | Hp Hl | l Hp Hl Hne Hnot | Hp Hl Ht Hs]; [by left| | |by auto].
  - right. left. destruct (language_of req) as [[| b | n | l | a | fs]|];
      cbn [bad_language]; try done.
    rewrite (Hl l eq_refl). unfold validLanguages.
    rewrite !elem_of_cons, elem_of_nil.
    intros [H|[H|[H|[H|[]]]]]; discriminate H.
  - right. left. by rewrite Hl.
Qed.

Lemma validation_failure_unique req m1 m2 :
  validation_failure req m1 -> validation_failure req m2 -> m1 = m2.
Proof.
  intros H1 H2.
  destruct H1 as [Hp1 | Hp1 Hl1 | l1 Hp1 Hl1 Hne1 Hnot1 | Hp1 Hl1 Ht1 Hs1];
    destruct H2 as [Hp2 | Hp2 Hl2 | l2 Hp2 Hl2 Hne2 Hnot2 | Hp2 Hl2 Ht2 Hs2];
    try reflexivity; try contradiction; exfalso.
  - apply Hne2. by apply Hl1.
  - destruct (good_language_string _ Hl2) as (l & Hl & Hin).
    rewrite (Hl1 l Hl) in Hin. revert Hin. unfold validLanguages.
    rewrite !elem_of_cons, elem_of_nil.
    intros [H|[H|[H|[H|[]]]]]; discriminate H.
  - apply Hne1. by apply Hl2.
  - apply Hl2. by rewrite Hl1.
  - destruct (good_language_string _ Hl1) as (l & Hl & Hin).
    rewrite (Hl2 l Hl) in Hin. revert Hin. unfold validLanguages.
    rewrite !elem_of_cons, elem_of_nil.
    intros [H|[H|[H|[H|[]]]]]; discriminate H.
  - apply Hl1. by rewrite Hl2.
Qed.

(** X4. A request refused by validation is answered with the message of
    the first check it fails, in the order prompt, language present,
    language known, [userId]; nothing else happens. *)
Theorem generate_validation_message (env : Env) (req : Request) (w : World)
    (msg : jsstring) :
  validation_failure req msg ->
  run (generateCode env req) w = (Some (generate_400 msg), w).
Proof.
  intros Hfail.
  pose proof (validation_failure_bad req msg Hfail) as Hbad.
  destruct (generateCode_cases env req w)
    as [(msg' & Hmsg & Hrun) | [(uid & Hu & Hne & Hp & Hl & _)
                               | (w1 & (Hp & Hl & Hpass) & _)]].
  - by rewrite (validation_failure_unique req msg msg' Hfail Hmsg).
  - exfalso. destruct Hbad as [?|[?|[_ Hs]]]; [done|done|].
    rewrite Hu in Hs. discriminate Hs.
  - exfalso. destruct Hbad as [?|[?|[Ht Hs]]]; [done|done|].
    destruct (passes_user_check_reference _ _ _ _ Hpass); congruence.
Qed.

Lemma generate_validation_message_witness :
  validation_failure (request "reverse a string" "python" None)
    (lit "Language must be one of: Python, JavaScript, C++, TypeScript") /\
  run (generateCode env_hi (request "reverse a string" "python" None)) empty_world
    = (Some (generate_400
               (lit "Language must be one of: Python, JavaScript, C++, TypeScript")),
       empty_world).
Proof.
  assert (H : validation_failure (request "reverse a string" "python" None)
    (lit "Language must be one of: Python, JavaScript, C++, TypeScript")).
  { apply (language_unknown _ (lit "python")).
    - apply (good_prompt_intro _ (lit "reverse a string") eq_refl).
      vm_compute. discriminate.
    - reflexivity.
    - discriminate.
    - unfold validLanguages. rewrite !elem_of_cons, elem_of_nil.
      intros [H|[H|[H|[H|[]]]]]; discriminate H. }
  split; [exact H|].
  exact (generate_validation_message env_hi _ empty_world _ H).
Defined.

(** X5. When the lookup of the user named by a valid request fails, the
    error goes to the [catch] block like an upstream error: the answer is
    the one the block gives for it (401 or 429 if its message holds a key or
    quota marker, its own status if it carries one, 500 with its message
    otherwise), the upstream is not called and nothing is written. *)
Theorem generate_lookup_failure (env : Env) (req : Request) (w : World)
    (uid : jsstring) (e : JsError) :
  ~ bad_prompt (prompt_of req) -> ~ bad_language (language_of req) ->
  userId_of req = Some (JStr uid) -> uid <> [] ->
  user_findUnique_error env = Some e ->
  run (generateCode env req) w =
    (Some (caught e), log (DbUserFindUnique uid) w) /\
  run (generate_catch e) w = (Some (caught e), w) /\
  (mentions_key (message e) = false -> mentions_quota (message e) = false ->
   status e = None -> caught e = generate_500 e).
Proof.
  intros Hp Hl Hu Hne Herr. split; [|split].
  - rewrite generateCode_validated;
      [|done|done|rewrite Hu; apply andb_false_r].
    rewrite (checked_lookup_fails _ _ _ _ _ uid e Hu Hne Herr).
    apply generate_catch_run.
  - apply generate_catch_run.
  - intros Hk Hq Hs. unfold caught. by rewrite Hk, Hq, Hs.
Qed.

Lemma generate_lookup_failure_witness :
  let e := new_Error (lit "Can't reach database server at `db:5432`") in
  let env := {| user_findUnique_error := Some e;
                fetch_result := fetch_result env_hi;
                generation_create_error := None;
                generated_id := lit "gen-new";
                current_timestamp := 1763800000000;
                generation_count_error := None;
                generation_findMany_error := None;
                tie_rank := fun _ => 0 |} in
  let req := request "reverse a string" "Python" (Some (JStr (lit "user-1"))) in
  userId_of req = Some (JStr (lit "user-1")) /\
  run (generateCode env req) alice_world =
    (Some (generate_500 e), log (DbUserFindUnique (lit "user-1")) alice_world).
Proof.
  intros e env req. split; [reflexivity|].
  assert (Hp : ~ bad_prompt (prompt_of req)).
  { apply (good_prompt_intro _ (lit "reverse a string") eq_refl).
    vm_compute. discriminate. }
  assert (Hl : ~ bad_language (language_of req)).
  { apply (good_language_intro _ (lit "Python") eq_refl). reflexivity. }
  assert (Hne : lit "user-1" <> []) by discriminate.
  destruct (generate_lookup_failure env req alice_world (lit "user-1") e
              Hp Hl eq_refl Hne eq_refl) as (Hrun & _ & Hplain).
  rewrite Hrun. by rewrite (Hplain eq_refl eq_refl eq_refl).
Defined.

(** X6. When the upstream call does not give an answer (the [fetch]
    promise rejects), or gives a 2xx answer whose body is not JSON, the
    error goes to the [catch] block; the one upstream call has been made and
    nothing is written. *)
Theorem generate_upstream_unusable (env : Env) (req : Request) (w w1 : World)
    (e : JsError) :
  reaches_upstream env req w w1 ->
  fetch_result env = FetchRejected e \/
  (exists r, fetch_result env = FetchResolved r /\ http_ok r = true /\
             http_json r = Unparsable e) ->
  run (generateCode env req) w =
    (Some (caught e), log (upstream_call req) w1) /\
  store (log (upstream_call req) w1) = store w /\
  forall g, caught e <> {| res_status := 200; res_body := BGeneration g |}.
Proof.
  intros Hreach Hfail. split; [|split].
  - rewrite (generateCode_reaches _ _ _ _ Hreach).
    destruct Hfail as [Hf | (r & Hf & Hok & Hj)].
    + rewrite (upstream_rejected _ _ _ _ _ e Hf). apply generate_catch_run.
    + rewrite (upstream_unparsable _ _ _ _ _ r e Hf Hok Hj).
      apply generate_catch_run.
  - by destruct (reaches_upstream_world _ _ _ _ Hreach) as [Hs _].
  - intros g. apply caught_not_generation.
Qed.

Lemma generate_upstream_unusable_witness :
  let e := new_Error (lit "fetch failed") in
  let env := env_with (FetchRejected e) in
  let req := request "reverse a string" "Python" None in
  reaches_upstream env req empty_world empty_world /\
  run (generateCode env req) empty_world =
    (Some (generate_500 e), log (upstream_call req) empty_world).
Proof.
  intros e env req.
  assert (Hreach : reaches_upstream env req empty_world empty_world).
  { split; [|split].
    - apply (good_prompt_intro _ (lit "reverse a string") eq_refl).
      vm_compute. discriminate.
    - apply (good_language_intro _ (lit "Python") eq_refl). reflexivity.
    - apply no_user_named. reflexivity. }
  split; [exact Hreach|].
  destruct (generate_upstream_unusable env req empty_world empty_world e
              Hreach (or_introl eq_refl)) as (Hrun & _).
  exact Hrun.
Defined.

(** X7. When the upstream answers 2xx with the JSON value [null], or with
    a body whose first-candidate text is present but not a string, reading
    the text throws a [TypeError]; the answer is the plain 500 of the
    [catch] block with the text of that error, and nothing is written. *)
Theorem generate_malformed_body (env : Env) (req : Request) (w w1 : World)
    (r : HttpResponse) (data : json) :
  reaches_upstream env req w w1 ->
  fetch_result env = FetchResolved r -> http_ok r = true ->
  http_json r = Parsed data ->
  data = JNull \/
  (exists v, candidate_text data = Some v /\ v <> JNull /\
             is_string (Some v) = false) ->
  exists e,
    (e = TypeError_null "candidates" \/ e = TypeError_not_a_function) /\
    run (generateCode env req) w =
      (Some (generate_500 e), log (upstream_call req) w1) /\
    res_status (generate_500 e) = 500 /\
    store (log (upstream_call req) w1) = store w.
Proof.
  intros Hreach Hf Hok Hj Hbad.
  assert (Ht : exists e,
    (e = TypeError_null "candidates" \/ e = TypeError_not_a_function) /\
    generated_text data = inl e).
  { destruct Hbad as [-> | (v & Hv & Hnull & Hstr)].
    - eexists. split; [by left | reflexivity].
    - exists TypeError_not_a_function. split; [by right|].
      unfold generated_text. rewrite Hv.
      destruct data; [discriminate Hv|..]; by destruct v. }
  destruct Ht as (e & He & Ht). exists e. split; [exact He|].
  split; [|split; [reflexivity|]].
  - rewrite (generateCode_reaches _ _ _ _ Hreach).
    rewrite (upstream_text_error _ _ _ _ _ r data e Hf Hok Hj Ht).
    rewrite generate_catch_run.
    assert (Hc : caught e = generate_500 e)
      by (destruct He as [-> | ->]; vm_compute; reflexivity).
    by rewrite Hc.
  - by destruct (reaches_upstream_world _ _ _ _ Hreach) as [Hs _].
Qed.

Lemma generate_malformed_body_witness :
  let data := JObj [(lit "candidates",
                JArr [JObj [(lit "content",
                  JObj [(lit "parts", JArr [JObj [(lit "text", JNum 42)]])])]])] in
  let env := env_with (http_reply 200 (lit "OK") data) in
  let req := request "reverse a string" "Python" None in
  candidate_text data = Some (JNum 42) /\
  exists e,
    (e = TypeError_null "candidates" \/ e = TypeError_not_a_function) /\
    run (generateCode env req) empty_world =
      (Some (generate_500 e), log (upstream_call req) empty_world) /\
    res_status (generate_500 e) = 500 /\
    store (log (upstream_call req) empty_world) = store empty_world.
Proof.
  intros data env req. split; [reflexivity|].
  assert (Hreach : reaches_upstream env req empty_world empty_world).
  { split; [|split].
    - apply (good_prompt_intro _ (lit "reverse a string") eq_refl).
      vm_compute. discriminate.
    - apply (good_language_intro _ (lit "Python") eq_refl). reflexivity.
    - apply no_user_named. reflexivity. }
  assert (Hbad : data = JNull \/
     (exists v, candidate_text data = Some v /\ v <> JNull /\
                is_string (Some v) = false)).
  { right. exists (JNum 42). split; [reflexivity|]. split; [discriminate|reflexivity]. }
  exact (generate_malformed_body env req empty_world empty_world
           {| http_status := 200; http_statusText := lit "OK";
              http_json := Parsed data |} data
           Hreach eq_refl eq_refl eq_refl Hbad).
Defined.

(** X8. When the upstream call gave a usable text but the store write
    fails, the error goes to the [catch] block: the text is not returned,
    the store is unchanged, and both the upstream call and the write attempt
    have been made. *)
Theorem generate_write_failure (env : Env) (req : Request) (w w1 : World)
    (r : HttpResponse) (data : json) (text : jsstring) (e : JsError) :
  reaches_upstream env req w w1 ->
  fetch_result env = FetchResolved r -> http_ok r = true ->
  http_json r = Parsed data ->
  candidate_text data = Some (JStr text) -> ~ whitespace_only text ->
  generation_create_error env = Some e ->
  run (generateCode env req) w =
    (Some (caught e),
     log (DbGenerationCreate (create_data req (trim text)))
       (log (upstream_call req) w1)) /\
  store (world_after (generateCode env req) w) = store w /\
  forall g, caught e <> {| res_status := 200; res_body := BGeneration g |}.
Proof.
  intros Hreach Hf Hok Hj Htext Hblank Herr.
  pose proof (generated_text_of_candidate _ _ Htext) as Ht.
  assert (Hne : trim text <> []) by (by rewrite trim_nil).
  assert (Hrun : run (generateCode env req) w =
    (Some (caught e),
     log (DbGenerationCreate (create_data req (trim text)))
       (log (upstream_call req) w1))).
  { rewrite (generateCode_reaches _ _ _ _ Hreach).
    rewrite (upstream_text _ _ _ _ _ r data (trim text) Hf Hok Hj Ht Hne).
    cbn zeta. rewrite Herr, generate_catch_run.
    destruct Hreach as (_ & _ & Hu). unfold create_data.
    by rewrite (user_reference_spec _ (passes_user_check_reference _ _ _ _ Hu)). }
  split; [exact Hrun|]. split.
  - destruct (run_parts _ _ _ _ Hrun) as [_ ->].
    by destruct (reaches_upstream_world _ _ _ _ Hreach) as [Hs _].
  - intros g. apply caught_not_generation.
Qed.

Lemma generate_write_failure_witness :
  let e := new_Error (lit "Can't reach database server at `db:5432`") in
  let env := {| user_findUnique_error := None;
                fetch_result := fetch_result env_hi;
                generation_create_error := Some e;
                generated_id := lit "gen-new";
                current_timestamp := 1763800000000;
                generation_count_error := None;
                generation_findMany_error := None;
                tie_rank := fun _ => 0 |} in
  let req := request "reverse a string" "Python" None in
  reaches_upstream env req empty_world empty_world /\
  response_of (generateCode env req) empty_world = Some (generate_500 e) /\
  generations (store (world_after (generateCode env req) empty_world)) = [].
Proof.
  intros e env req.
  assert (Hreach : reaches_upstream env req empty_world empty_world).
  { split; [|split].
    - apply (good_prompt_intro _ (lit "reverse a string") eq_refl).
      vm_compute. discriminate.
    - apply (good_language_intro _ (lit "Python") eq_refl). reflexivity.
    - apply no_user_named. reflexivity. }
  split; [exact Hreach|].
  assert (Htext : ~ whitespace_only (lit "print('hi')")).
  { apply not_blank_intro. vm_compute. discriminate. }
  destruct (generate_write_failure env req empty_world empty_world
              {| http_status := 200; http_statusText := lit "OK";
                 http_json := Parsed (gemini_reply (lit "print('hi')")) |}
              (gemini_reply (lit "print('hi')")) (lit "print('hi')") e
              Hreach eq_refl eq_refl eq_refl eq_refl Htext eq_refl)
    as (Hrun & Hstore & _).
  split; [|by rewrite Hstore].
  destruct (run_parts _ _ _ _ Hrun) as [-> _]. reflexivity.
Defined.

(** ** The data invariant of the store *)

Lemma well_formed_same_users s s' g :
  users s' = users s -> well_formed s g -> well_formed s' g.
Proof.
  intros Hu (H1 & H2 & H3 & H4 & H5 & H6).
  repeat (split; [assumption|]). intros uid Huid. rewrite Hu. by apply H6.
Qed.

Lemma user_reference_known env u w w1 uid :
  passes_user_check env u w w1 -> user_reference u = Some uid ->
  uid <> [] /\ is_Some (users (store w) !! uid).
Proof.
  intros [Hu | uid' usr -> Hne _ Hfound]; cbn [user_reference].
  - destruct u as [[| b | n | s | l | fs]|]; cbn [user_reference];
      try discriminate.
    cbn [truthy] in Hu. apply negb_false_iff in Hu. by rewrite Hu.
  - rewrite bool_decide_false by done. intros [= <-]. by rewrite Hfound.
Qed.

(** X9. [generateCode] keeps the data invariant of the generations table:
    if every stored generation has a non-empty prompt and a non-empty code
    without outer white space, one of the four languages, and an owner, if
    any, that exists, then so does every generation after the run. *)
Theorem generate_preserves_store_ok (env : Env) (req : Request) (w : World) :
  store_ok (store w) ->
  store_ok (store (world_after (generateCode env req) w)).
Proof.
  intros Hok.
  destruct (generateCode_follows_path env req w) as (r & w' & Hrun & Hpath).
  destruct (run_parts _ _ _ _ Hrun) as [_ ->].
  destruct Hpath as [msg _ | uid _ _ _ _ _ _ | uid e _ _ _ _ _
                    | w1 e Hreach _ | w1 Hreach | w1 code e Hreach _ _
                    | w1 code Hreach Hcode Hclean _];
    try (destruct (reaches_upstream_world _ _ _ _ Hreach) as [Hstore _]);
    cbn [log store]; rewrite ?Hstore; try exact Hok.
  unfold store_ok. cbn [generations].
  apply Forall_app. split.
  - eapply Forall_impl; [exact Hok|]. intros g Hg.
    by apply (well_formed_same_users (store w)).
  - apply Forall_singleton.
    destruct Hreach as (Hp & Hl & Hu).
    destruct (good_prompt_string _ Hp) as (p & Hpv & Hblank).
    destruct (good_language_string _ Hl) as (l & Hlv & Hin).
    unfold well_formed, created.
    cbn [gen_prompt gen_language gen_code gen_userId users].
    rewrite Hpv, Hlv. cbn [string_of].
    split; [by rewrite trim_nil|]. split; [apply trim_no_outer_space|].
    split; [exact Hin|]. split; [exact Hcode|]. split; [exact Hclean|].
    intros uid Huid.
    exact (user_reference_known env (userId_of req) w w1 uid Hu Huid).
Qed.

Lemma generate_preserves_store_ok_witness :
  let req := request "  reverse a string " "Python" (Some (JStr (lit "user-1"))) in
  store_ok (store alice_world) /\
  store_ok (store (world_after (generateCode env_hi req) alice_world)) /\
  length (generations (store (world_after (generateCode env_hi req) alice_world)))
    = 1%nat.
Proof.
  intros req.
  assert (Hok : store_ok (store alice_world)) by constructor.
  split; [exact Hok|].
  split; [exact (generate_preserves_store_ok env_hi req alice_world Hok)|].
  reflexivity.
Defined.

(** ** Pages requested by their decimal number *)

Lemma page_of_with_page q p : p <> 0 -> page_of (with_page q p) = p.
Proof.
  intros Hp.
  change (page_of (with_page q p)) with (or_number (parseInt (dec p)) 1).
  rewrite parseInt_dec. unfold or_number.
  by replace (p =? 0) with false by (symmetry; by apply Z.eqb_neq).
Qed.

Lemma limit_of_with_page q p : limit_of (with_page q p) = limit_of q.
Proof. reflexivity. Qed.

Lemma where_of_with_page q p : where_of (with_page q p) = where_of q.
Proof. reflexivity. Qed.

(** ** The history endpoint, continued *)

Lemma getHistory_answers env q w :
  database_answers env -> 1 <= page_of q -> 1 <= limit_of q <= 100 ->
  response_of (getHistory env q) w = Some (history_200 env q (store w)).
Proof.
  intros [Hc Hf] Hp Hl. unfold response_of.
  rewrite getHistory_valid by assumption. by rewrite Hc, Hf.
Qed.

Lemma response_rows_200 env q s :
  response_rows (Some (history_200 env q s)) = history_rows env q s.
Proof.
  cbn [response_rows history_200 res_body].
  rewrite <- list_fmap_compose. apply list_fmap_id.
Qed.

(** Consecutive windows of [n] elements, put end to end. *)
Lemma windows_cover {A} (l : list A) (n k : nat) :
  mjoin ((fun p => take n (drop (Z.to_nat ((p - 1) * Z.of_nat n)) l))
           <$> seqZ 1 (Z.of_nat k))
  = take (k * n) l.
Proof.
  induction k as [|k IH]; [by rewrite take_0|].
  rewrite seqZ_S, fmap_app, join_app, IH. cbn [fmap list_fmap mjoin list_join].
  rewrite app_nil_r.
  replace (Z.to_nat ((1 + Z.of_nat k - 1) * Z.of_nat n)) with (k * n)%nat by lia.
  rewrite take_take_drop. f_equal. lia.
Qed.

(** X10. The pages partition the result. Over a store in which no two of
    the rows found have the same timestamp, and for a limit within range,
    the rows answered for the pages 1 to [totalPages], each page requested
    by its decimal number in a request of its own, are, put end to end,
    the rows found in their newest-first order, each once. (With rows of
    one timestamp the database may order each answer differently, and a
    row may then show on two pages or on none.) *)
Theorem history_pages_cover (envs : Z -> Env) (q : Query) (w : World)
    (ordered : list Generation) :
  let found := matching (where_of q) (store w) in
  let totalPages := ceil_div (Z.of_nat (length found)) (limit_of q) in
  (forall p, database_answers (envs p)) -> 1 <= limit_of q <= 100 ->
  distinct_timestamps found ->
  newest_first found ordered ->
  mjoin ((fun p => response_rows
                     (response_of (getHistory (envs p) (with_page q p)) w))
           <$> seqZ 1 totalPages)
  = ordered.
Proof.
  intros found totalPages Hdb Hl Hd Hord.
  pose proof (ceil_div_spec (Z.of_nat (length found)) (limit_of q) ltac:(lia))
    as Hceil. fold totalPages in Hceil.
  assert (Hrows : (fun p => response_rows
                      (response_of (getHistory (envs p) (with_page q p)) w))
                  <$> seqZ 1 totalPages
                = (fun p => take (Z.to_nat (limit_of q))
                      (drop (Z.to_nat ((p - 1) * Z.of_nat (Z.to_nat (limit_of q))))
                         ordered))
                  <$> seqZ 1 totalPages).
  { apply list_fmap_ext. intros i p Hp.
    apply list_elem_of_lookup_2, elem_of_seqZ in Hp.
    rewrite getHistory_answers;
      [|done|rewrite page_of_with_page; lia|by rewrite limit_of_with_page].
    rewrite response_rows_200. unfold history_rows.
    rewrite page_of_with_page, limit_of_with_page, where_of_with_page by lia.
    fold found.
    rewrite (newest_first_unique found _ ordered Hd
               (findMany_newest_first (envs p) found) Hord).
    by rewrite Z2Nat.id by lia. }
  rewrite Hrows.
  replace totalPages with (Z.of_nat (Z.to_nat totalPages)) by nia.
  rewrite windows_cover. apply take_ge.
  destruct Hord as [Hperm _]. rewrite (Permutation_length Hperm). nia.
Qed.

Lemma store25_newest_first :
  distinct_timestamps (generations store25) /\
  newest_first (generations store25)
    (sample_generation <$>
       [25; 24; 23; 22; 21; 20; 19; 18; 17; 16; 15; 14; 13; 12; 11; 10; 9; 8;
        7; 6; 5; 4; 3; 2; 1]).
Proof.
  split; [apply (bool_decide_unpack _); vm_compute; exact I|].
  change (newest_first (generations store25)
            (merge_sort newer_or_same (generations store25))).
  split; [apply merge_sort_Permutation | apply StronglySorted_merge_sort; apply _].
Qed.

Lemma history_pages_cover_witness :
  let q := query None (Some "10"%string) in
  let envs := fun p : Z => env_ranking (if Z.even p then "Python" else "TypeScript") in
  let found := matching (where_of q) (store world25) in
  let ordered :=
    sample_generation <$>
      [25; 24; 23; 22; 21; 20; 19; 18; 17; 16; 15; 14; 13; 12; 11; 10; 9; 8;
       7; 6; 5; 4; 3; 2; 1] in
  ((forall p, database_answers (envs p)) /\ 1 <= limit_of q <= 100 /\
   distinct_timestamps found /\ newest_first found ordered) /\
  mjoin ((fun p => response_rows
                     (response_of (getHistory (envs p) (with_page q p)) world25))
           <$> [1; 2; 3])
  = ordered.
Proof.
  intros q envs found ordered.
  assert (Hdb : forall p, database_answers (envs p)) by (intros p; split; reflexivity).
  assert (Hl : 1 <= limit_of q <= 100) by (split; vm_compute; discriminate).
  assert (Hd : distinct_timestamps found) by exact (proj1 store25_newest_first).
  assert (Hord : newest_first found ordered) by exact (proj2 store25_newest_first).
  split; [exact (conj Hdb (conj Hl (conj Hd Hord)))|].
  exact (history_pages_cover envs q world25 ordered Hdb Hl Hd Hord).
Defined.

Lemma history_rows_length env q s :
  0 <= page_of q - 1 -> 0 <= limit_of q ->
  Z.of_nat (length (history_rows env q s)) =
    Z.max 0 (Z.min (limit_of q)
               (Z.of_nat (length (matching (where_of q) s))
                - (page_of q - 1) * limit_of q)).
Proof.
  intros Hp Hl. unfold history_rows.
  rewrite length_take, length_drop, newest_first_length. nia.
Qed.

(** X11. For a validated request the page holds
    [min limit (total - (page - 1) * limit)] rows (none if that is
    negative); it is non-empty exactly when [page <= totalPages]; and
    [hasNext] is true exactly when the next page, requested by its decimal
    number, is non-empty. *)
Theorem history_page_size (env : Env) (q : Query) (w : World) :
  database_answers env -> 1 <= page_of q -> 1 <= limit_of q <= 100 ->
  let total := Z.of_nat (length (matching (where_of q) (store w))) in
  let rows := response_rows (response_of (getHistory env q) w) in
  let next := response_rows
                (response_of (getHistory env (with_page q (page_of q + 1))) w) in
  Z.of_nat (length rows) =
    Z.max 0 (Z.min (limit_of q) (total - (page_of q - 1) * limit_of q)) /\
  (rows <> [] <-> page_of q <= ceil_div total (limit_of q)) /\
  exists pg,
    response_pagination (response_of (getHistory env q) w) = Some pg /\
    (pg_hasNext pg = true <-> next <> []) /\
    (pg_hasPrev pg = true <-> 1 <= page_of q - 1).
Proof.
  intros Hdb Hp Hl total rows next.
  pose proof (ceil_div_spec total (limit_of q) ltac:(lia)) as Hceil.
  assert (Hnonempty : forall q', 1 <= page_of q' -> limit_of q' = limit_of q ->
            where_of q' = where_of q ->
            (response_rows (response_of (getHistory env q') w) <> [] <->
             page_of q' <= ceil_div total (limit_of q))).
  { intros q' Hp' Hl' Hw'.
    rewrite getHistory_answers by (done || lia). rewrite response_rows_200.
    pose proof (history_rows_length env q' (store w) ltac:(lia) ltac:(lia)) as Hlen.
    rewrite Hl', Hw' in Hlen. fold total in Hlen.
    rewrite <- length_zero_iff_nil. split; intros H; nia. }
  split; [|split].
  - unfold rows. rewrite getHistory_answers by done. rewrite response_rows_200.
    apply history_rows_length; lia.
  - by apply Hnonempty.
  - eexists. split; [by rewrite getHistory_answers by done|].
    cbn [pg_hasNext pg_hasPrev]. split.
    + unfold next. rewrite Hnonempty;
        [|rewrite page_of_with_page; lia|done|done].
      rewrite page_of_with_page by lia. fold total. rewrite Z.ltb_lt. lia.
    + rewrite Z.gtb_ltb, Z.ltb_lt. lia.
Qed.

Lemma history_page_size_witness :
  let q := query (Some "3"%string) (Some "10"%string) in
  (database_answers env_hi /\ 1 <= page_of q /\ 1 <= limit_of q <= 100) /\
  Z.of_nat (length (response_rows (response_of (getHistory env_hi q) world25)))
    = 5 /\
  response_rows (response_of (getHistory env_hi (with_page q 4)) world25) = [].
Proof.
  intros q.
  assert (Hdb : database_answers env_hi) by (split; reflexivity).
  assert (Hp : 1 <= page_of q) by (vm_compute; discriminate).
  assert (Hl : 1 <= limit_of q <= 100) by (split; vm_compute; discriminate).
  split; [exact (conj Hdb (conj Hp Hl))|].
  destruct (history_page_size env_hi q world25 Hdb Hp Hl)
    as (Hlen & _ & _).
  split; [exact Hlen | reflexivity].
Defined.

(** X12. Every generation in an answer of [getHistory] is a stored one,
    and, when the [language] parameter is a non-empty string, has exactly
    that language; [total] counts the stored generations with that language,
    and all stored generations when the parameter is absent or empty. *)
Theorem history_filter_sound (env : Env) (q : Query) (w : World) :
  database_answers env -> 1 <= page_of q -> 1 <= limit_of q <= 100 ->
  (forall g, g ∈ response_rows (response_of (getHistory env q) w) ->
     g ∈ generations (store w) /\
     forall l, q_language q = Some l -> l <> [] -> gen_language g = l) /\
  exists pg,
    response_pagination (response_of (getHistory env q) w) = Some pg /\
    (forall l, q_language q = Some l -> l <> [] ->
       pg_total pg =
         Z.of_nat (length (filter (fun g => gen_language g = l)
                             (generations (store w))))) /\
    (q_language q = None \/ q_language q = Some [] ->
       pg_total pg = Z.of_nat (length (generations (store w)))).
Proof.
  intros Hdb Hp Hl. rewrite getHistory_answers by done.
  rewrite response_rows_200. split.
  - intros g Hg. unfold history_rows in Hg.
    apply subseteq_take, subseteq_drop in Hg.
    rewrite merge_sort_Permutation in Hg.
    unfold matching in Hg. apply list_elem_of_filter in Hg as [Hm Hin].
    split; [exact Hin|]. intros l Hq Hne.
    unfold where_of in Hm. rewrite Hq, bool_decide_false in Hm by done.
    cbn [matches_where] in Hm. by apply bool_decide_eq_true in Hm.
  - eexists. split; [reflexivity|]. cbn [pg_total]. split.
    + intros l Hq Hne. unfold matching, where_of.
      rewrite Hq, bool_decide_false by done. cbn [matches_where].
      do 2 f_equal. apply list_filter_iff. intros g.
      by rewrite bool_decide_eq_true.
    + intros Hq. unfold matching.
      assert (Hw : where_of q = None).
      { unfold where_of. destruct Hq as [-> | ->]; [done|].
        by rewrite bool_decide_true. }
      rewrite Hw. cbn [matches_where]. do 2 f_equal.
      induction (generations (store w)) as [|g gs IH]; [done|].
      by rewrite filter_cons_True, IH.
Qed.

Lemma history_filter_sound_witness :
  let q := {| q_page := None; q_limit := None;
              q_language := Some (lit "Python") |} in
  (database_answers env_hi /\ 1 <= page_of q /\ 1 <= limit_of q <= 100) /\
  exists pg,
    response_pagination (response_of (getHistory env_hi q) world25) = Some pg /\
    pg_total pg = 25.
Proof.
  intros q.
  assert (Hdb : database_answers env_hi) by (split; reflexivity).
  assert (Hp : 1 <= page_of q) by (vm_compute; discriminate).
  assert (Hl : 1 <= limit_of q <= 100) by (split; vm_compute; discriminate).
  split; [exact (conj Hdb (conj Hp Hl))|].
  destruct (history_filter_sound env_hi q world25 Hdb Hp Hl)
    as (_ & pg & Hpg & Htotal & _).
  exists pg. split; [exact Hpg|].
  exact (Htotal (lit "Python") eq_refl ltac:(discriminate)).
Defined.

(** X13. In an answer of [getHistory] over a store that satisfies the data
    invariant, an item has a user summary exactly when its generation has
    an owner, and the summary then carries the owner's identifier and the
    name and the email stored for that user. *)
Theorem history_owner_summary (env : Env) (q : Query) (w : World)
    (item : HistoryItem) :
  store_ok (store w) ->
  database_answers env -> 1 <= page_of q -> 1 <= limit_of q <= 100 ->
  item ∈ response_items (response_of (getHistory env q) w) ->
  (item_user item = None <-> gen_userId (item_generation item) = None) /\
  forall u, item_user item = Some u ->
    gen_userId (item_generation item) = Some (sum_id u) /\
    exists usr, users (store w) !! sum_id u = Some usr /\
                sum_name u = user_name usr /\ sum_email u = user_email usr.
Proof.
  intros Hok Hdb Hp Hl Hitem.
  rewrite getHistory_answers in Hitem by done.
  cbn [response_items history_200 res_body] in Hitem.
  apply list_elem_of_fmap in Hitem as (g & -> & Hg).
  unfold history_rows in Hg. apply subseteq_take, subseteq_drop in Hg.
  rewrite merge_sort_Permutation in Hg.
  unfold matching in Hg. apply list_elem_of_filter in Hg as [_ Hin].
  unfold store_ok in Hok. rewrite Forall_forall in Hok.
  destruct (Hok g Hin) as (_ & _ & _ & _ & _ & Howner).
  unfold with_user. cbn [item_user item_generation].
  destruct (gen_userId g) as [uid|] eqn:Hu; cbn [mbind option_bind].
  - destruct (Howner uid eq_refl) as [_ [usr Husr]]. rewrite Husr.
    cbn [mbind option_bind]. split; [split; discriminate|].
    intros u [= <-]. cbn [sum_id sum_name sum_email].
    split; [reflexivity|]. by exists usr.
  - split; [done|]. discriminate.
Qed.

Lemma history_owner_summary_witness :
  let g := {| gen_id := lit "gen-1"; gen_prompt := lit "reverse a string";
              gen_language := lit "Python"; gen_code := lit "print('hi')";
              gen_userId := Some (lit "user-1"); gen_createdAt := 1763700000001 |} in
  let w := {| store := {| users := {[ lit "user-1" := alice ]};
                          generations := [g] |}; trace := [] |} in
  let item := with_user (store w) g in
  (store_ok (store w) /\
   item ∈ response_items (response_of (getHistory env_hi (query None None)) w)) /\
  forall u, item_user item = Some u ->
    gen_userId (item_generation item) = Some (sum_id u) /\
    exists usr, users (store w) !! sum_id u = Some usr /\
                sum_name u = user_name usr /\ sum_email u = user_email usr.
Proof.
  intros g w item.
  assert (Hok : store_ok (store w)).
  { apply Forall_singleton. unfold well_formed. cbn [g gen_prompt gen_language
      gen_code gen_userId].
    split; [discriminate|]. split.
    { split; intros c r Hc.
      - by injection Hc as <- _.
      - apply (f_equal (@rev N)) in Hc. rewrite rev_app_distr in Hc.
        vm_compute in Hc. by injection Hc as <- _. }
    split; [in_list|]. split; [discriminate|]. split.
    { split; intros c r Hc.
      - by injection Hc as <- _.
      - apply (f_equal (@rev N)) in Hc. rewrite rev_app_distr in Hc.
        vm_compute in Hc. by injection Hc as <- _. }
    intros uid [= <-]. split; [discriminate|]. by exists alice. }
  assert (Hitem : item ∈ response_items
            (response_of (getHistory env_hi (query None None)) w))
    by (vm_compute; apply list_elem_of_here).
  split; [exact (conj Hok Hitem)|].
  assert (Hdb : database_answers env_hi) by (split; reflexivity).
  assert (Hp : 1 <= page_of (query None None)) by (vm_compute; discriminate).
  assert (Hl : 1 <= limit_of (query None None) <= 100)
    by (split; vm_compute; discriminate).
  exact (proj2 (history_owner_summary env_hi (query None None) w item
                  Hok Hdb Hp Hl Hitem)).
Defined.

(** X14. Whatever the query, an answer of [getHistory] that carries a
    page reports a page number of at least 1 and a limit between 1 and 100,
    holds at most [limit] rows, hence never more than 100, and its
    [totalPages] is between 0 and [total]. *)
Theorem history_bounds (env : Env) (q : Query) (w : World) (pg : Pagination) :
  response_pagination (response_of (getHistory env q) w) = Some pg ->
  1 <= pg_page pg /\ 1 <= pg_limit pg <= 100 /\
  Z.of_nat (length (response_rows (response_of (getHistory env q) w)))
    <= pg_limit pg /\
  0 <= pg_totalPages pg <= pg_total pg.
Proof.
  unfold response_of.
  destruct (Z.lt_ge_cases (page_of q) 1) as [Hp|Hp].
  { rewrite getHistory_bad_page by done. discriminate. }
  destruct (decide (1 <= limit_of q <= 100)) as [Hl|Hl].
  2:{ rewrite getHistory_bad_limit by lia. discriminate. }
  rewrite getHistory_valid by (done || lia). cbn zeta.
  destruct (generation_count_error env), (generation_findMany_error env);
    cbn [fst]; try discriminate.
  intros [= <-]. rewrite response_rows_200.
  cbn [pg_page pg_limit pg_total pg_totalPages].
  split; [lia|]. split; [lia|]. split.
  - unfold history_rows. rewrite length_take. lia.
  - pose proof (ceil_div_spec
                  (Z.of_nat (length (matching (where_of q) (store w))))
                  (limit_of q) ltac:(lia)). nia.
Qed.

Lemma history_bounds_witness :
  let q := query (Some "2"%string) (Some "100"%string) in
  exists pg,
    response_pagination (response_of (getHistory env_hi q) world25) = Some pg /\
    1 <= pg_page pg /\ 1 <= pg_limit pg <= 100 /\
    Z.of_nat (length (response_rows (response_of (getHistory env_hi q) world25)))
      <= pg_limit pg /\
    0 <= pg_totalPages pg <= pg_total pg.
Proof.
  intros q. eexists. split; [reflexivity|].
  exact (history_bounds env_hi q world25 _ eq_refl).
Defined.

(** X15. When either database query of a validated history request fails,
    the answer is the fixed 500 [{error: 'Failed to fetch history'}],
    whatever the error was; both queries have been issued and the store is
    unchanged. *)
Theorem history_database_failure (env : Env) (q : Query) (w : World) :
  1 <= page_of q -> 1 <= limit_of q <= 100 ->
  ~ database_answers env ->
  run (getHistory env q) w =
    (Some history_500,
     {| store := store w;
        trace := trace w ++
          [DbGenerationCount (where_of q);
           DbGenerationFindMany (where_of q)
             ((page_of q - 1) * limit_of q) (limit_of q)] |}).
Proof.
  intros Hp Hl Hdb. rewrite getHistory_valid by done. cbn zeta.
  unfold log. cbn [store trace]. rewrite <- (assoc_L (++)). cbn [app].
  destruct (generation_count_error env) eqn:Hc;
    destruct (generation_findMany_error env) eqn:Hf; try reflexivity.
  exfalso. apply Hdb. by split.
Qed.

Lemma history_database_failure_witness :
  let env := {| user_findUnique_error := None;
                fetch_result := fetch_result env_hi;
                generation_create_error := None;
                generated_id := lit "gen-new";
                current_timestamp := 1763800000000;
                generation_count_error := None;
                generation_findMany_error :=
                  Some (new_Error (lit "Can't reach database server at `db:5432`"));
                tie_rank := fun _ => 0 |} in
  ~ database_answers env /\
  response_of (getHistory env (query None None)) world25 = Some history_500.
Proof.
  intros env.
  assert (Hdb : ~ database_answers env) by (intros [_ H]; discriminate H).
  split; [exact Hdb|].
  assert (Hp : 1 <= page_of (query None None)) by (vm_compute; discriminate).
  assert (Hl : 1 <= limit_of (query None None) <= 100)
    by (split; vm_compute; discriminate).
  unfold response_of.
  by rewrite (history_database_failure env (query None None) world25 Hp Hl Hdb).
Defined.

Lemma not_digit_not_zero c : is_decimal_digit c = false -> (c =? 48)%N = false.
Proof.
  intros H. apply N.eqb_neq. intros ->. discriminate H.
Qed.

Lemma parse_digits_not_digit c r :
  is_decimal_digit c = false -> parse_digits 10 (c :: r) None = None.
Proof.
  intros Hc. cbn [parse_digits].
  destruct (digit_value c) as [d|] eqn:Hd; [|reflexivity].
  apply digit_value_other in Hd; [|assumption].
  by replace (d <? 10) with false by (symmetry; apply Z.ltb_ge; lia).
Qed.

(** A value that does not start with a number is not a number. *)
Lemma parseInt_not_numeric s : not_numeric s -> parseInt s = None.
Proof.
  unfold not_numeric, parseInt.
  destruct (trim_start s) as [|c r]; [reflexivity|].
  destruct (bool_decide (c = 45%N \/ c = 43%N)) eqn:Hsign.
  - apply bool_decide_eq_true in Hsign. intros Hr.
    destruct Hsign as [-> | ->]; cbn [N.eqb Pos.eqb];
      destruct r as [|d [|x r]]; try reflexivity;
      cbn in Hr;
      rewrite ?(not_digit_not_zero d Hr); cbn [andb];
      by rewrite parse_digits_not_digit.
  - apply bool_decide_eq_false in Hsign. intros Hc.
    replace (c =? 45)%N with false by (symmetry; apply N.eqb_neq; tauto).
    replace (c =? 43)%N with false by (symmetry; apply N.eqb_neq; tauto).
    destruct r as [|x r].
    + by rewrite parse_digits_not_digit.
    + rewrite (not_digit_not_zero c Hc). cbn [andb].
      by rewrite parse_digits_not_digit.
Qed.

(** X16. A [page] or [limit] parameter that is absent, empty, blank, or
    that does not start (after white space and one optional sign) with a
    decimal digit is replaced by the default, 1 for the page and 10 for the
    limit, and is never the cause of a 400. *)
Theorem history_non_numeric_default (env : Env) (q : Query) (w : World)
    (p : option jsstring) :
  p = None \/ (exists s, p = Some s /\ not_numeric s) ->
  (q_page q = p ->
   page_of q = 1 /\
   response_of (getHistory env q) w <> Some history_400_page) /\
  (q_limit q = p ->
   limit_of q = 10 /\
   (1 <= page_of q ->
    response_of (getHistory env q) w <> Some history_400_limit)).
Proof.
  intros Hp.
  assert (Hnan : parseInt_param p = None).
  { destruct Hp as [-> | (s & -> & Hs)]; [reflexivity|].
    by apply parseInt_not_numeric. }
  assert (Hstatus : forall r : Response,
            1 <= page_of q -> 1 <= limit_of q <= 100 -> res_status r = 400 ->
            response_of (getHistory env q) w <> Some r).
  { intros r H1 H2 Hr. unfold response_of.
    rewrite getHistory_valid by done. cbn zeta.
    destruct (generation_count_error env), (generation_findMany_error env);
      cbn [fst]; intros [= <-]; discriminate Hr. }
  split.
  - intros Hq.
    assert (Hpage : page_of q = 1) by (unfold page_of; by rewrite Hq, Hnan).
    split; [exact Hpage|].
    destruct (decide (1 <= limit_of q <= 100)) as [Hl|Hl].
    + apply Hstatus; [lia | done | reflexivity].
    + unfold response_of. rewrite getHistory_bad_limit by lia.
      cbn [fst]. intros H.
      apply (f_equal (fmap (M:=option) res_body)) in H.
      vm_compute in H. discriminate H.
  - intros Hq.
    assert (Hlimit : limit_of q = 10) by (unfold limit_of; by rewrite Hq, Hnan).
    split; [exact Hlimit|]. intros Hpage.
    apply Hstatus; [done | lia | reflexivity].
Qed.

Lemma history_non_numeric_default_witness :
  let q := query (Some "abc"%string) (Some "abc"%string) in
  (exists s, q_page q = Some s /\ not_numeric s) /\
  page_of q = 1 /\ limit_of q = 10.
Proof.
  intros q.
  assert (Hs : not_numeric (lit "abc")) by reflexivity.
  split; [by exists (lit "abc")|].
  destruct (history_non_numeric_default env_hi q world25 (Some (lit "abc"))
              (or_intror (ex_intro _ (lit "abc") (conj eq_refl Hs))))
    as [Hpage Hlimit].
  split; [exact (proj1 (Hpage eq_refl)) | exact (proj1 (Hlimit eq_refl))].
Defined.

(** ** The two endpoints together *)

Lemma generateCode_stored env req w g w' :
  run (generateCode env req) w =
    (Some {| res_status := 200; res_body := BGeneration g |}, w') ->
  users (store w') = users (store w) /\
  generations (store w') = generations (store w) ++ [g] /\
  gen_language g ∈ validLanguages /\
  gen_createdAt g = current_timestamp env.
Proof.
  intros Hrun.
  destruct (generateCode_follows_path env req w) as (r & w'' & Hrun' & Hpath).
  rewrite Hrun in Hrun'. injection Hrun' as Hr Hw. subst w''.
  destruct Hpath as [msg _ | uid _ _ _ _ _ _ | uid e _ _ _ _ _
                    | w1 e _ _ | w1 _ | w1 code e _ _ _
                    | w1 code Hreach _ _ _];
    try discriminate Hr;
    try (exfalso; by eapply caught_not_generation).
  injection Hr as ->.
  destruct (reaches_upstream_world _ _ _ _ Hreach) as [Hstore _].
  cbn [store users generations]. rewrite Hstore.
  split; [reflexivity|]. split; [reflexivity|]. split; [|reflexivity].
  destruct Hreach as (_ & Hl & _).
  destruct (good_language_string _ Hl) as (l & Hlv & Hin).
  cbn [created gen_language]. by rewrite Hlv.
Qed.

(** In a list sorted newest first, a row strictly newer than all the
    others comes first, whatever the order among equal timestamps. *)
Lemma newest_first_head env (l : list Generation) (g : Generation) :
  Forall (fun g0 => gen_createdAt g0 < gen_createdAt g) l ->
  exists rest, merge_sort (returned_before env) (l ++ [g]) = g :: rest.
Proof.
  intros Hold.
  pose proof (newest_first_sorted env (l ++ [g])) as Hsorted.
  pose proof (merge_sort_Permutation (returned_before env) (l ++ [g])) as Hperm.
  destruct (merge_sort (returned_before env) (l ++ [g])) as [|x rest] eqn:Hm.
  { apply Permutation_length in Hperm. rewrite length_app in Hperm.
    cbn in Hperm. lia. }
  exists rest. f_equal.
  apply StronglySorted_inv in Hsorted as [_ Hx].
  assert (Hxin : x ∈ l ++ [g]) by (rewrite <- Hperm; apply list_elem_of_here).
  assert (Hgin : g ∈ x :: rest).
  { rewrite Hperm. apply elem_of_app. right. apply list_elem_of_here. }
  rewrite Forall_forall in Hold, Hx.
  apply elem_of_app in Hxin as [Hxl | Hxg].
  - exfalso. specialize (Hold x Hxl).
    apply elem_of_cons in Hgin as [-> | Hgr]; [lia|].
    specialize (Hx g Hgr). unfold newer_or_same in Hx. lia.
  - by apply list_elem_of_singleton in Hxg.
Qed.

(** X17. A generation just stored by [generateCode], when its timestamp
    is newer than those already stored, is the first row of page 1 of the
    history (for any limit in range and no language filter or the filter of
    its own language), and the total has grown by one. *)
Theorem history_shows_new_generation (env envh : Env) (req : Request)
    (w w' : World) (g : Generation) (q : Query) :
  run (generateCode env req) w =
    (Some {| res_status := 200; res_body := BGeneration g |}, w') ->
  Forall (fun g0 => gen_createdAt g0 < gen_createdAt g) (generations (store w)) ->
  database_answers envh -> page_of q = 1 -> 1 <= limit_of q <= 100 ->
  where_of q = None \/ where_of q = Some (gen_language g) ->
  exists rest pg,
    response_of (getHistory envh q) w' =
      Some {| res_status := 200;
              res_body := BHistory (with_user (store w') g :: rest) pg |} /\
    pg_total pg =
      Z.of_nat (length (matching (where_of q) (store w))) + 1.
Proof.
  intros Hrun Hold Hdb Hp Hl Hw.
  destruct (generateCode_stored _ _ _ _ _ Hrun) as (_ & Hgens & _ & _).
  assert (Hmatch : matching (where_of q) (store w')
                   = matching (where_of q) (store w) ++ [g]).
  { unfold matching. rewrite Hgens, filter_app. f_equal.
    rewrite filter_cons_True; [done|].
    destruct Hw as [-> | ->]; cbn [matches_where]; [done|].
    by apply bool_decide_eq_true. }
  assert (Hold' : Forall (fun g0 => gen_createdAt g0 < gen_createdAt g)
                    (matching (where_of q) (store w))).
  { rewrite Forall_forall in Hold |- *. intros g0 Hg0.
    apply Hold. unfold matching in Hg0.
    by apply list_elem_of_filter in Hg0 as [_ ?]. }
  destruct (newest_first_head envh _ g Hold') as (rest & Hsorted).
  rewrite getHistory_answers by (done || lia).
  unfold history_200, history_rows. rewrite Hmatch, Hsorted, Hp.
  replace (Z.to_nat ((1 - 1) * limit_of q)) with 0%nat by lia.
  cbn [drop].
  destruct (Z.to_nat (limit_of q)) as [|n] eqn:Hn; [lia|].
  cbn [take fmap list_fmap]. eexists _, _. split; [reflexivity|].
  cbn [pg_total]. rewrite length_app. cbn [length]. lia.
Qed.

Lemma history_shows_new_generation_witness :
  let req := request "reverse a string" "Python" None in
  let q := query None None in
  let g := created env_hi (lit "reverse a string") (lit "Python")
             (lit "print('hi')") None in
  let w' := {| store := {| users := users (store world25);
                           generations := generations (store world25) ++ [g] |};
               trace := [upstream_call req;
                         DbGenerationCreate (create_data req (lit "print('hi')"))] |} in
  (run (generateCode env_hi req) world25 =
     (Some {| res_status := 200; res_body := BGeneration g |}, w') /\
   Forall (fun g0 => gen_createdAt g0 < gen_createdAt g)
     (generations (store world25))) /\
  exists rest pg,
    response_of (getHistory env_hi q) w' =
      Some {| res_status := 200;
              res_body := BHistory (with_user (store w') g :: rest) pg |} /\
    pg_total pg = Z.of_nat (length (matching (where_of q) (store world25))) + 1.
Proof.
  intros req q g w'.
  assert (Hrun : run (generateCode env_hi req) world25 =
                 (Some {| res_status := 200; res_body := BGeneration g |}, w'))
    by (vm_compute; reflexivity).
  assert (Hold : Forall (fun g0 => gen_createdAt g0 < gen_createdAt g)
                   (generations (store world25))).
  { apply Forall_forall. intros g0 Hg0.
    cbn [world25 store store25 generations] in Hg0.
    apply list_elem_of_fmap in Hg0 as (i & -> & Hi).
    apply elem_of_seqZ in Hi. cbn [sample_generation gen_createdAt].
    change (gen_createdAt g) with 1763800000000. lia. }
  split; [exact (conj Hrun Hold)|].
  assert (Hl : 1 <= limit_of q <= 100) by (split; vm_compute; discriminate).
  exact (history_shows_new_generation env_hi env_hi req world25 w' g q
           Hrun Hold (conj eq_refl eq_refl) eq_refl Hl (or_introl eq_refl)).
Defined.

(** ** The client and the server *)

Lemma fetchHistory_query_read (page : Z) :
  page_of (fetchHistory_query page) = or_number (Some page) 1 /\
  limit_of (fetchHistory_query page) = 10 /\
  where_of (fetchHistory_query page) = None.
Proof.
  split; [|split; reflexivity].
  change (page_of (fetchHistory_query page))
    with (or_number (parseInt (dec page)) 1).
  by rewrite parseInt_dec.
Qed.

(** X18. The page number the client writes into the URL of
    [fetchHistory(page)] is the page number the server reads back, for
    every page number that a JavaScript number holds exactly (at most
    [MAX_SAFE_INTEGER] in magnitude; such a number is written in plain
    digits) except 0, which the server reads as the default 1; the limit
    it reads is 10 and no language filter is set. *)
Theorem fetchHistory_round_trip (page : Z) :
  - MAX_SAFE_INTEGER <= page <= MAX_SAFE_INTEGER ->
  page_of (fetchHistory_query page) = (if page =? 0 then 1 else page) /\
  limit_of (fetchHistory_query page) = 10 /\
  where_of (fetchHistory_query page) = None.
Proof. intros _. exact (fetchHistory_query_read page). Qed.

Lemma fetchHistory_round_trip_witness :
  - MAX_SAFE_INTEGER <= 3 <= MAX_SAFE_INTEGER /\
  q_page (fetchHistory_query 3) = Some (lit "3") /\
  page_of (fetchHistory_query 3) = 3 /\
  limit_of (fetchHistory_query 3) = 10 /\
  where_of (fetchHistory_query 3) = None.
Proof.
  assert (H : - MAX_SAFE_INTEGER <= 3 <= MAX_SAFE_INTEGER)
    by (split; discriminate).
  split; [exact H|]. split; [reflexivity|].
  exact (fetchHistory_round_trip 3 H).
Defined.

(** X19. When the pagination the client holds is the one the server
    reports for the present store (with the client's limit of 10), every
    page [handlePageChange] fetches exists: the server accepts the request
    and answers with that page, which is not empty; and when
    [handlePageChange] does not fetch, it leaves the state as it was. *)
Theorem page_change_fetches_existing_page (env : Env) (w : World)
    (st : PageState) (pg : Pagination) (newPage : Z) :
  database_answers env ->
  pagination st = Some pg ->
  pg_totalPages pg = ceil_div (Z.of_nat (length (generations (store w)))) 10 ->
  match handlePageChange st newPage with
  | (st', Some p) =>
      p = newPage /\ currentPage st' = newPage /\
      pagination st' = pagination st /\
      exists gens pg',
        response_of (getHistory env (fetchHistory_query p)) w =
          Some {| res_status := 200; res_body := BHistory gens pg' |} /\
        gens <> [] /\ pg_page pg' = newPage /\ pg_limit pg' = 10 /\
        pg_totalPages pg' = pg_totalPages pg
  | (st', None) =>
      st' = st /\ (newPage < 1 \/ pg_totalPages pg < newPage)
  end.
Proof.
  intros Hdb Hpg Htp. unfold handlePageChange. rewrite Hpg.
  cbn [from_option].
  destruct (Z.geb_spec newPage 1) as [H1|H1];
    destruct (Z.leb_spec newPage (pg_totalPages pg)) as [H2|H2];
    cbn [andb]; try (split; [reflexivity | lia]).
  destruct (fetchHistory_query_read newPage) as (Hpage & Hlimit & Hwhere).
  unfold or_number in Hpage.
  replace (newPage =? 0) with false in Hpage by (symmetry; apply Z.eqb_neq; lia).
  repeat (split; [reflexivity|]).
  assert (Hall : matching (where_of (fetchHistory_query newPage)) (store w)
                 = generations (store w)).
  { rewrite Hwhere. apply matching_none. }
  eexists _, _. split.
  { rewrite getHistory_answers; [reflexivity | done | lia | lia]. }
  cbn [pg_page pg_limit pg_totalPages]. rewrite Hall, Hpage, Hlimit, <- Htp.
  split; [|done].
  intros Hnil. apply fmap_nil_inv in Hnil.
  pose proof (history_rows_length env (fetchHistory_query newPage) (store w)
                ltac:(lia) ltac:(lia)) as Hlen.
  rewrite Hnil, Hall, Hpage, Hlimit in Hlen. cbn [length] in Hlen.
  pose proof (ceil_div_spec (Z.of_nat (length (generations (store w)))) 10
                ltac:(lia)) as Hceil.
  rewrite <- Htp in Hceil. lia.
Qed.

Lemma page_change_fetches_existing_page_witness :
  let pg := {| pg_page := 1; pg_limit := 10; pg_total := 25; pg_totalPages := 3;
               pg_hasNext := true; pg_hasPrev := false |} in
  let st := {| currentPage := 1; pagination := Some pg |} in
  (database_answers env_hi /\
   pg_totalPages pg = ceil_div (Z.of_nat (length (generations (store world25)))) 10) /\
  match handlePageChange st 2 with
  | (st', Some p) =>
      p = 2 /\ currentPage st' = 2 /\
      pagination st' = pagination st /\
      exists gens pg',
        response_of (getHistory env_hi (fetchHistory_query p)) world25 =
          Some {| res_status := 200; res_body := BHistory gens pg' |} /\
        gens <> [] /\ pg_page pg' = 2 /\ pg_limit pg' = 10 /\
        pg_totalPages pg' = pg_totalPages pg
  | (st', None) =>
      st' = st /\ (2 < 1 \/ pg_totalPages pg < 2)
  end.
Proof.
  intros pg st.
  assert (Hdb : database_answers env_hi) by (split; reflexivity).
  assert (Htp : pg_totalPages pg
                = ceil_div (Z.of_nat (length (generations (store world25)))) 10)
    by reflexivity.
  split; [exact (conj Hdb Htp)|].
  exact (page_change_fetches_existing_page env_hi world25 st pg 2
           Hdb eq_refl Htp).
Defined.

(** X20. The guard of [handleGenerate] and the validation of
    [generateCode] agree: a blank prompt is refused in the client with
    'Please enter a prompt' and nothing is sent; for any other prompt and a
    language of the client's list, the body the client sends passes the
    server's validation, no user is looked up, and the answer is neither a
    400 of the validation nor the 404 of an unknown user. *)
Theorem client_request_is_valid (env : Env) (w : World)
    (prompt language : jsstring) :
  language ∈ LANGUAGES ->
  match handleGenerate_request prompt language with
  | inl msg => whitespace_only prompt /\ msg = lit "Please enter a prompt"
  | inr req =>
      ~ whitespace_only prompt /\
      reaches_upstream env req w w /\
      exists r w',
        run (generateCode env req) w = (Some r, w') /\
        r <> generate_404 /\ (forall msg, r <> generate_400 msg) /\
        exists effs, trace w' = trace w ++ effs /\
                     Forall (fun e => is_user_lookup e = false) effs
  end.
Proof.
  intros Hlang. unfold handleGenerate_request.
  destruct (decide (trim prompt = [])) as [Hblank|Hblank].
  { rewrite bool_decide_true by done. by rewrite <- trim_nil. }
  rewrite bool_decide_false by done.
  set (req := {| body := [(lit "prompt", JStr prompt);
                          (lit "language", JStr language)] |}).
  assert (Hreach : reaches_upstream env req w w).
  { split; [|split].
    - by apply (good_prompt_intro _ prompt eq_refl).
    - change (language_of req) with (Some (JStr language)).
      cbn [bad_language]. tauto.
    - by apply no_user_named. }
  split; [by rewrite <- trim_nil|]. split; [exact Hreach|].
  rewrite (generateCode_reaches _ _ _ _ Hreach).
  destruct (generate_upstream_cases env (prompt_of req) (language_of req)
              (userId_of req) w)
    as [(e & _ & Hres) | [Hres | (r & data & code & _ & _ & _ & _ & _ & Hres)]];
    cbn zeta in *.
  - eexists _, _. split; [exact Hres|].
    split; [unfold caught; repeat case_match; intros [=]|].
    split; [intros msg; unfold caught; repeat case_match; intros [=]|].
    eexists. split; [reflexivity | by repeat constructor].
  - eexists _, _. split; [exact Hres|].
    split; [intros [=]|]. split; [intros msg [=]|].
    eexists. split; [reflexivity | by repeat constructor].
  - destruct Hres as [(e & _ & Hres) | (_ & Hres)];
      eexists _, _; (split; [exact Hres|]).
    + split; [unfold caught; repeat case_match; intros [=]|].
      split; [intros msg; unfold caught; repeat case_match; intros [=]|].
      eexists. split; [unfold log; cbn [trace]; by rewrite <- (assoc_L (++))|].
      by repeat constructor.
    + split; [intros [=]|]. split; [intros msg [=]|].
      eexists. split; [reflexivity | by repeat constructor].
Qed.

Lemma client_request_is_valid_witness :
  lit "TypeScript" ∈ LANGUAGES /\
  match handleGenerate_request (lit " sum two numbers ") (lit "TypeScript") with
  | inl msg => whitespace_only (lit " sum two numbers ")
               /\ msg = lit "Please enter a prompt"
  | inr req =>
      ~ whitespace_only (lit " sum two numbers ") /\
      reaches_upstream env_hi req empty_world empty_world /\
      exists r w',
        run (generateCode env_hi req) empty_world = (Some r, w') /\
        r <> generate_404 /\ (forall msg, r <> generate_400 msg) /\
        exists effs, trace w' = trace empty_world ++ effs /\
                     Forall (fun e => is_user_lookup e = false) effs
  end.
Proof.
  assert (H : lit "TypeScript" ∈ LANGUAGES) by in_list.
  split; [exact H|].
  exact (client_request_is_valid env_hi empty_world (lit " sum two numbers ")
           (lit "TypeScript") H).
Defined.

Lemma error_text_of_message err m :
  m <> [] -> err <> lit "OpenAI API quota exceeded" ->
  handleGenerate_error (BErrorMessage err m) =
    if includes m (lit "quota") then quota_notice else m.
Proof.
  intros Hm Herr. unfold handleGenerate_error.
  cbn [body_error body_message truthy is_string string_of].
  rewrite (bool_decide_false (m = [])), (bool_decide_false (err = _)) by done.
  reflexivity.
Qed.

Lemma error_text_of_error err :
  err <> [] -> err <> lit "OpenAI API quota exceeded" ->
  handleGenerate_error (BError err) =
    if includes err (lit "quota") then quota_notice else err.
Proof.
  intros Hm Herr. unfold handleGenerate_error.
  cbn [body_error body_message truthy is_string string_of].
  rewrite (bool_decide_false (err = [])), (bool_decide_false (err = _)) by done.
  reflexivity.
Qed.

(** X21. For every answer of [generateCode] that is not ok, the text the
    client shows is not empty: it is the [message] of the answer, or its
    [error] when it has no message, except that a text that contains
    ["quota"] is replaced by the client's own quota notice, which names
    OpenAI; this is what the server's 429 answer is shown as. *)
Theorem client_error_text (env : Env) (req : Request) (w w' : World)
    (r : Response) :
  run (generateCode env req) w = (Some r, w') ->
  res_status r < 200 \/ 299 < res_status r ->
  handleGenerate_error (res_body r) <> [] /\
  (r = generate_429 -> handleGenerate_error (res_body r) = quota_notice) /\
  exists m,
    m <> [] /\
    (body_message (res_body r) = Some (JStr m) \/
     body_message (res_body r) = None /\ body_error (res_body r) = Some (JStr m)) /\
    handleGenerate_error (res_body r) =
      if includes m (lit "quota") then quota_notice else m.
Proof.
  intros Hrun Hstatus.
  assert (Hmain : exists m,
    m <> [] /\
    (body_message (res_body r) = Some (JStr m) \/
     body_message (res_body r) = None /\ body_error (res_body r) = Some (JStr m)) /\
    handleGenerate_error (res_body r) =
      if includes m (lit "quota") then quota_notice else m).
  { destruct (generateCode_follows_path env req w) as (r0 & w0 & Hrun0 & Hpath).
    rewrite Hrun in Hrun0. injection Hrun0 as <- <-.
    assert (Hcaught : forall e, exists m,
      m <> [] /\
      (body_message (res_body (caught e)) = Some (JStr m) \/
       body_message (res_body (caught e)) = None /\
       body_error (res_body (caught e)) = Some (JStr m)) /\
      handleGenerate_error (res_body (caught e)) =
        if includes m (lit "quota") then quota_notice else m).
    { intros e. unfold caught.
      repeat case_match;
        cbn [res_body generate_401 generate_429 generate_500];
        eexists; (split; [|split; [left; reflexivity|]]);
        try (apply error_text_of_message);
        first [ discriminate
              | case_bool_decide; [discriminate | assumption]
              | match goal with
                | H : bool_decide _ = false |- _ =>
                    by apply bool_decide_eq_false in H
                end ]. }
    destruct Hpath as [msg Hmsg | uid _ _ _ _ _ _ | uid e _ _ _ _ _
                      | w1 e _ _ | w1 _ | w1 code e _ _ _
                      | w1 code _ _ _ _]; try apply Hcaught.
    - exists msg. cbn [res_body generate_400 body_message body_error].
      assert (Hne : msg <> [] /\ msg <> lit "OpenAI API quota exceeded")
        by (destruct Hmsg; split; discriminate).
      split; [tauto|]. split; [by right|].
      apply error_text_of_error; tauto.
    - eexists. split; [|split; [right; split; reflexivity|]];
        [|apply error_text_of_error]; discriminate.
    - eexists. split; [|split; [right; split; reflexivity|]];
        [|apply error_text_of_error]; discriminate.
    - exfalso. cbn [res_status] in Hstatus. lia. }
  destruct Hmain as (m & Hm & Hbody & Htext).
  split; [|split; [|by exists m]].
  - rewrite Htext. destruct (includes m (lit "quota")); [discriminate|done].
  - intros ->. vm_compute. reflexivity.
Qed.

Lemma client_error_text_witness :
  let req := request "reverse a string" "Python" None in
  let env := env_with (http_reply 429 (lit "Too Many Requests")
               (gemini_error_body (lit "Resource has been exhausted (e.g. check quota)."))) in
  (run (generateCode env req) empty_world =
     (Some generate_429, log (upstream_call req) empty_world) /\
   299 < res_status generate_429) /\
  handleGenerate_error (res_body generate_429) = quota_notice.
Proof.
  intros req env.
  assert (Hrun : run (generateCode env req) empty_world =
                 (Some generate_429, log (upstream_call req) empty_world))
    by (vm_compute; reflexivity).
  assert (Hs : 299 < res_status generate_429) by (vm_compute; reflexivity).
  split; [exact (conj Hrun Hs)|].
  exact (proj1 (proj2 (client_error_text env req empty_world _ generate_429
                         Hrun (or_intror Hs))) eq_refl).
Defined.

(** X22. The paging buttons and [handlePageChange] agree. With the
    pagination of a server answer in the client state, and the client on
    the page of that answer, not beyond the last page: Next is enabled
    ([hasNext]) exactly when [handlePageChange(currentPage + 1)] fetches,
    and Prev is enabled ([hasPrev]) exactly when
    [handlePageChange(currentPage - 1)] fetches. *)
Theorem paging_buttons_agree (env : Env) (q : Query) (w : World)
    (pg : Pagination) :
  response_pagination (response_of (getHistory env q) w) = Some pg ->
  pg_page pg <= Z.max 1 (pg_totalPages pg) ->
  let st := {| currentPage := pg_page pg; pagination := Some pg |} in
  (pg_hasNext pg = true <->
   snd (handlePageChange st (currentPage st + 1)) = Some (currentPage st + 1)) /\
  (pg_hasPrev pg = true <->
   snd (handlePageChange st (currentPage st - 1)) = Some (currentPage st - 1)).
Proof.
  intros Hpg Hlast st.
  assert (Hflags : pg_hasNext pg = (pg_page pg <? pg_totalPages pg) /\
                   pg_hasPrev pg = (pg_page pg >? 1) /\ 1 <= pg_page pg).
  { revert Hpg. unfold response_of.
    destruct (Z.lt_ge_cases (page_of q) 1) as [Hp|Hp].
    { rewrite getHistory_bad_page by done. discriminate. }
    destruct (decide (1 <= limit_of q <= 100)) as [Hl|Hl].
    2:{ rewrite getHistory_bad_limit by lia. discriminate. }
    rewrite getHistory_valid by (done || lia). cbn zeta.
    destruct (generation_count_error env), (generation_findMany_error env);
      cbn [fst]; try discriminate.
    intros [= <-]. cbn [pg_hasNext pg_hasPrev pg_page pg_totalPages].
    repeat split; lia. }
  destruct Hflags as (Hnext & Hprev & Hpage).
  unfold handlePageChange. cbn [st currentPage pagination from_option].
  rewrite Hnext, Hprev. split.
  - destruct (Z.ltb_spec (pg_page pg) (pg_totalPages pg)) as [H|H].
    + replace (pg_page pg + 1 >=? 1) with true by (symmetry; apply Z.geb_le; lia).
      replace (pg_page pg + 1 <=? pg_totalPages pg) with true
        by (symmetry; apply Z.leb_le; lia).
      done.
    + replace (pg_page pg + 1 <=? pg_totalPages pg) with false
        by (symmetry; apply Z.leb_gt; lia).
      rewrite andb_false_r. split; discriminate.
  - rewrite Z.gtb_ltb.
    destruct (Z.ltb_spec 1 (pg_page pg)) as [H|H].
    + replace (pg_page pg - 1 >=? 1) with true by (symmetry; apply Z.geb_le; lia).
      replace (pg_page pg - 1 <=? pg_totalPages pg) with true
        by (symmetry; apply Z.leb_le; lia).
      done.
    + replace (pg_page pg - 1 >=? 1) with false
        by (symmetry; rewrite Z.geb_leb; apply Z.leb_gt; lia).
      split; discriminate.
Qed.

Lemma paging_buttons_agree_witness :
  let q := fetchHistory_query 3 in
  exists pg,
    response_pagination (response_of (getHistory env_hi q) world25) = Some pg /\
    pg_page pg <= Z.max 1 (pg_totalPages pg) /\
    pg_hasNext pg = false /\
    snd (handlePageChange {| currentPage := 3; pagination := Some pg |} 4) = None /\
    snd (handlePageChange {| currentPage := 3; pagination := Some pg |} 2) = Some 2.
Proof.
  intros q. eexists. split; [reflexivity|].
  assert (Hlast : 3 <= Z.max 1 3) by (vm_compute; discriminate).
  split; [exact Hlast|].
  destruct (paging_buttons_agree env_hi q world25 _ eq_refl Hlast)
    as [Hnext Hprev].
  split; [reflexivity|]. split; [reflexivity|].
  exact (proj1 Hprev eq_refl).
Defined.

(** X23. When the upstream answer is not ok and its body is not JSON, the
    parse error is dropped and the message of the error handed to the
    [catch] block is the HTTP status text, or, when that is empty, 'API
    request failed with status N' with the status in decimal. *)
Theorem upstream_failure_without_json (env : Env) (req : Request) (w w1 : World)
    (r : HttpResponse) (e0 : JsError) :
  reaches_upstream env req w w1 ->
  fetch_result env = FetchResolved r -> http_ok r = false ->
  http_json r = Unparsable e0 ->
  run (generateCode env req) w =
    (Some (caught
             (new_Error
                (if bool_decide (http_statusText r = [])
                 then lit "API request failed with status " ++ dec (http_status r)
                 else http_statusText r))),
     log (upstream_call req) w1).
Proof.
  intros Hreach Hf Hok Hj.
  rewrite (generateCode_reaches _ _ _ _ Hreach).
  rewrite (upstream_not_ok _ _ _ _ _ r Hf Hok), generate_catch_run.
  unfold upstream_failure. rewrite Hj.
  cbn [upstream_error_message member assoc].
  rewrite bool_decide_true by done. cbn [opt_member member assoc].
  rewrite bool_decide_true by done. cbn [truthy from_option to_string].
  by destruct (bool_decide (http_statusText r = [])).
Qed.

Lemma upstream_failure_without_json_witness :
  let r := {| http_status := 502; http_statusText := [];
              http_json := Unparsable (new_Error (lit "Unexpected token < in JSON at position 0")) |} in
  let env := env_with (FetchResolved r) in
  let req := request "reverse a string" "Python" None in
  (reaches_upstream env req empty_world empty_world /\ http_ok r = false) /\
  run (generateCode env req) empty_world =
    (Some (generate_500 (new_Error (lit "API request failed with status 502"))),
     log (upstream_call req) empty_world).
Proof.
  intros r env req.
  assert (Hreach : reaches_upstream env req empty_world empty_world).
  { split; [|split].
    - apply (good_prompt_intro _ (lit "reverse a string") eq_refl).
      vm_compute. discriminate.
    - apply (good_language_intro _ (lit "Python") eq_refl). reflexivity.
    - apply no_user_named. reflexivity. }
  split; [exact (conj Hreach eq_refl)|].
  exact (upstream_failure_without_json env req empty_world empty_world r _
           Hreach eq_refl eq_refl eq_refl).
Defined.
